(** * Netmiko: session utilities and vendor drivers

    A shallow embedding of [netmiko/utilities.py] and of the Mellanox
    MLNX-OS and 6WIND drivers, with the properties the system description
    states about them.

    Conventions of the embedding:
    - a Python [str] that is only stored, compared or concatenated is a
      [string]; a [str] that is scanned by a regular expression is a
      [list ascii], a sequence of code points below 256 (on that range the
      class [\d] of Python's [re] is exactly [0-9]);
    - a [dict] with string keys is a [gmap string _];
    - a call that may raise returns a [result]; a method of a connection
      object threads the connection through a state-and-exception monad. *)

From Stdlib Require Import ZArith Ascii String List Lia.
From stdpp Require Import base option list gmap strings fin_maps.

#[local] Set Warnings "-register-all".

(** Closes a decidable closed goal by evaluation. *)
Ltac by_evaluation := apply (bool_decide_unpack _); vm_compute; exact I.

(** ** Python values, exceptions, results *)

(** The values that travel through [**kwargs] and come out of the parsers. *)
Inductive pyval :=
| PNone
| PBool (b : bool)
| PInt (z : Z)
| PStr (s : string)
| PList (l : list pyval)
| PDict (d : list (string * pyval)).

(** The exception classes the modelled code raises, catches or lets through.
    [OtherException] stands for any further subclass of [Exception],
    [NonException] for a [BaseException] that is not an [Exception]
    (KeyboardInterrupt, SystemExit). *)
Inductive exn :=
| ValueError (msg : string)
| FileNotFoundError
| CliTableError
| ModuleNotFoundError
| AssertionError
| IndexError
| KeyError
| TypeError
| OtherException (name : string)
| NonException (name : string).

Definition is_Exception (e : exn) : bool :=
  match e with NonException _ => false | _ => true end.

Inductive result (A : Type) :=
| Return (a : A)
| Raise (e : exn).
Arguments Return {A} a.
Arguments Raise {A} e.

Definition is_None (v : pyval) : bool :=
  match v with PNone => true | _ => false end.

(** The line feed of Python's string literals, [\n]. *)
Definition NL : string := String "010" EmptyString.

(** ** utilities.py: SHOW_RUN_MAPPER *)

Module ShowRun.

(** The dictionary display of lines 55-81, in source order. *)
Definition SHOW_RUN_MAPPER_items : list (string * string) :=
  [ ("juniper", "show configuration");
    ("juniper_junos", "show configuration");
    ("extreme", "show configuration");
    ("extreme_ers", "show running-config");
    ("extreme_exos", "show configuration");
    ("extreme_netiron", "show running-config");
    ("extreme_nos", "show running-config");
    ("extreme_slx", "show running-config");
    ("extreme_vdx", "show running-config");
    ("extreme_vsp", "show running-config");
    ("extreme_wing", "show running-config");
    ("hp_comware", "display current-configuration");
    ("huawei", "display current-configuration");
    ("fortinet", "show full-configuration");
    ("checkpoint", "show configuration");
    ("cisco_wlc", "show run-config");
    ("enterasys", "show running-config");
    ("dell_force10", "show running-config");
    ("avaya_vsp", "show running-config");
    ("avaya_ers", "show running-config");
    ("brocade_vdx", "show running-config");
    ("brocade_nos", "show running-config");
    ("brocade_fastiron", "show running-config");
    ("brocade_netiron", "show running-config");
    ("alcatel_aos", "show configuration snapshot") ].

(** A dictionary display inserts its pairs from left to right. *)
Definition dict_display (items : list (string * string)) : gmap string string :=
  foldl (fun d kv => <[kv.1 := kv.2]> d) ∅ items.

(** The base mapping: [SHOW_RUN_MAPPER] as bound at line 55. *)
Definition SHOW_RUN_MAPPER_base : gmap string string :=
  dict_display SHOW_RUN_MAPPER_items.

(** One turn of the loop of lines 85-88. *)
Definition expand_step (new_dict : gmap string string) (kv : string * string)
  : gmap string string :=
  let new_key := kv.1 +:+ "_ssh" in
  let new_dict := <[kv.1 := kv.2]> new_dict in
  <[new_key := kv.2]> new_dict.

(** Lines 84-89.  [items()] walks the dictionary in insertion order; the
    display has no repeated key ([SHOW_RUN_MAPPER_items_NoDup] below), so
    that walk is the display itself. *)
Definition expand (items : list (string * string)) : gmap string string :=
  foldl expand_step ∅ items.

(** [SHOW_RUN_MAPPER] after module initialisation (line 89). *)
Definition SHOW_RUN_MAPPER : gmap string string :=
  expand SHOW_RUN_MAPPER_items.

End ShowRun.

(** ** utilities.py: select_cmd_verify *)

Module CmdVerify.

Section Decorator.
(** The connection object, known here only through the attribute the
    decorator reads. *)
Context {Self : Type} (global_cmd_verify : Self → pyval).
Context {R : Type}.

(** A decorated callable: [func(self, *args, **kwargs)]. *)
Definition callable : Type := Self → list pyval → gmap string pyval → R.

(** Lines 462-471: [wrapper_decorator]. *)
Definition select_cmd_verify (func : callable) : callable :=
  fun self args kwargs =>
    let kwargs :=
      if is_None (global_cmd_verify self) then kwargs
      else <["cmd_verify" := global_cmd_verify self]> kwargs in
    func self args kwargs.

End Decorator.

(** How Python binds the parameter [cmd_verify] of an operation
    [def op(self, p1, ..., pn, cmd_verify=default, ...)] in the call
    [op(self, *args, **kwargs)].  [position] is [Some n], the number of
    parameters between [self] and [cmd_verify], when the parameter can be
    passed positionally, and [None] when it is keyword-only.  A value
    passed positionally and by keyword is a [TypeError] ("got multiple
    values for argument"); otherwise the positional value, else the
    keyword value, else the default is bound. *)
Definition bind_cmd_verify (position : option nat) (default : pyval)
    (args : list pyval) (kwargs : gmap string pyval) : result pyval :=
  match position ≫= (args !!.) with
  | Some v =>
      match kwargs !! "cmd_verify" with
      | Some _ => Raise TypeError
      | None => Return v
      end
  | None => Return (from_option id default (kwargs !! "cmd_verify"))
  end.

(** An operation with such a parameter: [body] gets the value bound to
    [cmd_verify], the positional arguments, and the other keyword
    arguments. *)
Definition operation {Self R : Type} (position : option nat) (default : pyval)
    (body : Self → list pyval → pyval → gmap string pyval → R)
  : Self → list pyval → gmap string pyval → result R :=
  fun self args kwargs =>
    match bind_cmd_verify position default args kwargs with
    | Return cmd_verify => Return (body self args cmd_verify (delete "cmd_verify" kwargs))
    | Raise e => Raise e
    end.

(** [bogus_func] of tests/test_netmiko_show.py: the decorated function
    hands back what the decorator passed to it. *)
Definition bogus_func {Self : Type} (global_cmd_verify : Self → pyval)
  : Self → list pyval → gmap string pyval → Self * list pyval * gmap string pyval :=
  select_cmd_verify global_cmd_verify (fun obj args kwargs => (obj, args, kwargs)).

End CmdVerify.

(** ** The fragment of Python's [re] the sanitizer uses *)

Module Re.

(** A [str] under a regular expression: code points below 256. *)
Abbreviation text := (list ascii).

(** A string literal as text. *)
Abbreviation txt := list_ascii_of_string.

(** The character classes of the sanitizer's patterns. *)
Inductive cls :=
| Digit   (** [\d] *)
| Octal.  (** [[0-7]] *)

Definition in_cls (k : cls) (c : ascii) : bool :=
  let n := nat_of_ascii c in
  match k with
  | Digit => (48 <=? n)%nat && (n <=? 57)%nat
  | Octal => (48 <=? n)%nat && (n <=? 55)%nat
  end.

(** The patterns of the sanitizer: literal characters (escaped or not),
    classes, [\d+], alternation, concatenation and capturing groups.  None
    of them matches the empty string. *)
Inductive regex :=
| Chr (c : ascii)
| Cls (k : cls)
| Plus (k : cls)
| Alt (r1 r2 : regex)
| Cat (r1 r2 : regex)
| Grp (r : regex).

(** [k+], greedy: take one character of the class, then prefer taking
    more, and fall back on going on from here. *)
Fixpoint match_plus {A} (k : cls) (s : text) (cont : text → option A) : option A :=
  match s with
  | c :: s' =>
      if in_cls k c then
        match match_plus k s' cont with
        | Some v => Some v
        | None => cont s'
        end
      else None
  | [] => None
  end.

(** The backtracking matcher: [rmatch r s groups cont] matches [r] at the
    head of [s], hands what is left and the groups captured so far to
    [cont], and tries the next alternative, in Python's order, when [cont]
    turns it down.  A group is recorded when it closes (the patterns nest
    no groups). *)
Fixpoint rmatch {A} (r : regex) (s : text) (groups : list text)
    (cont : text → list text → option A) : option A :=
  match r with
  | Chr c =>
      match s with
      | x :: s' => if bool_decide (x = c) then cont s' groups else None
      | [] => None
      end
  | Cls k =>
      match s with
      | x :: s' => if in_cls k x then cont s' groups else None
      | [] => None
      end
  | Plus k => match_plus k s (fun s' => cont s' groups)
  | Alt r1 r2 =>
      match rmatch r1 s groups cont with
      | Some v => Some v
      | None => rmatch r2 s groups cont
      end
  | Cat r1 r2 => rmatch r1 s groups (fun s' groups' => rmatch r2 s' groups' cont)
  | Grp r1 =>
      rmatch r1 s groups
        (fun s' groups' => cont s' (groups' ++ [take (length s - length s') s]))
  end.

(** [re.match]: the length of the match at the head of [s] and its groups. *)
Definition match_at (r : regex) (s : text) : option (nat * list text) :=
  rmatch r s [] (fun s' groups => Some (length s - length s', groups)).

(** [re.fullmatch], as a test. *)
Definition fullmatch (r : regex) (s : text) : bool :=
  bool_decide (is_Some
    (rmatch r s [] (fun s' _ => match s' with [] => Some () | _ => None end))).

(** [re.search]: start, length and groups of the leftmost match. *)
Fixpoint search_from (r : regex) (start : nat) (s : text) : option (nat * nat * list text) :=
  match match_at r s with
  | Some (n, groups) => Some (start, n, groups)
  | None =>
      match s with
      | [] => None
      | _ :: s' => search_from r (S start) s'
      end
  end.

Definition re_search (r : regex) (s : text) : option (nat * nat * list text) :=
  search_from r 0 s.

(** [re.sub] with a replacement free of backslashes, which is then taken
    literally ([Ansi.literal_template] names the condition; with a
    backslash Python expands the replacement as a template or raises
    [re.error]).  [skip] counts the characters of the last match still to
    pass over; an empty match (none of the patterns has one) would insert
    the replacement and move on by one character, as Python does. *)
Fixpoint sub_from (r : regex) (repl : text) (skip : nat) (s : text) : text :=
  match s with
  | [] =>
      match skip, match_at r [] with
      | O, Some _ => repl
      | _, _ => []
      end
  | c :: s' =>
      match skip with
      | S k => sub_from r repl k s'
      | O =>
          match match_at r s with
          | Some (S n, _) => repl ++ sub_from r repl n s'
          | Some (O, _) => repl ++ c :: sub_from r repl 0 s'
          | None => c :: sub_from r repl 0 s'
          end
      end
  end.

Definition re_sub (r : regex) (repl : text) (s : text) : text :=
  sub_from r repl 0 s.

(** [int(digits)] on a run of [0-9], where [int] returns: Python raises
    [ValueError] on more than 4300 digits ([Ansi.count_in_range]). *)
Definition int (digits : text) : nat :=
  foldl (fun n c => 10 * n + (nat_of_ascii c - 48))%nat 0%nat digits.

(** A concatenation [r r1 r2 ...]. *)
Fixpoint seq (r : regex) (rs : list regex) : regex :=
  match rs with
  | [] => r
  | r' :: rs => Cat r (seq r' rs)
  end.

End Re.

(** ** utilities.py: strip_ansi_escape_codes *)

Module Ansi.
Import Re.

(** [chr(27)] *)
Definition ESC : ascii := "027"%char.

(** [chr(27) + r"..."] *)
Definition code (body : list regex) : regex := seq (Chr ESC) body.

Notation "'\d'" := (Cls Digit).
Notation "'\d+'" := (Plus Digit).

(** Lines 531-553. *)
Definition code_position_cursor := code [Chr "["; \d+; Chr ";"; \d+; Chr "H"].
Definition code_show_cursor := code [Chr "["; Chr "?"; Chr "2"; Chr "5"; Chr "h"].
Definition code_next_line := code [Chr "E"].
Definition code_erase_line_end := code [Chr "["; Chr "K"].
Definition code_erase_line := code [Chr "["; Chr "2"; Chr "K"].
Definition code_erase_start_line := code [Chr "["; Chr "K"].
Definition code_enable_scroll := code [Chr "["; \d+; Chr ";"; \d+; Chr "r"].
Definition code_insert_line := code [Chr "["; Grp \d+; Chr "L"].
Definition code_carriage_return := code [Chr "["; Chr "1"; Chr "M"].
Definition code_disable_line_wrapping := code [Chr "["; Chr "?"; Chr "7"; Chr "l"].
Definition code_reset_mode_screen_options := code [Chr "["; Chr "?"; \d+; Chr "l"].
Definition code_reset_graphics_mode := code [Chr "["; Chr "0"; Chr "0"; Chr "m"].
Definition code_erase_display := code [Chr "["; Chr "2"; Chr "J"].
Definition code_erase_display_0 := code [Chr "["; Chr "J"].
Definition code_graphics_mode := code [Chr "["; \d; \d; Chr ";"; \d; \d; Chr "m"].
Definition code_graphics_mode2 :=
  code [Chr "["; \d; \d; Chr ";"; \d; \d; Chr ";"; \d; \d; Chr "m"].
Definition code_graphics_mode3 :=
  code [Chr "["; Grp (Alt (Chr "3") (Chr "4")); \d; Chr "m"].
Definition code_graphics_mode4 :=
  code [Chr "["; Grp (Alt (Chr "9") (Cat (Chr "1") (Chr "0"))); Cls Octal; Chr "m"].
Definition code_get_cursor_position := code [Chr "["; Chr "6"; Chr "n"].
Definition code_cursor_position := code [Chr "["; Chr "m"].
Definition code_attrs_off := code [Chr "["; Chr "0"; Chr "m"].
Definition code_reverse := code [Chr "["; Chr "7"; Chr "m"].
Definition code_cursor_left := code [Chr "["; \d+; Chr "D"].

(** Lines 555-578. *)
Definition code_set : list regex :=
  [ code_position_cursor;
    code_show_cursor;
    code_erase_line;
    code_enable_scroll;
    code_erase_start_line;
    code_carriage_return;
    code_disable_line_wrapping;
    code_erase_line_end;
    code_reset_mode_screen_options;
    code_reset_graphics_mode;
    code_erase_display;
    code_graphics_mode;
    code_graphics_mode2;
    code_graphics_mode3;
    code_graphics_mode4;
    code_get_cursor_position;
    code_cursor_position;
    code_erase_display;
    code_erase_display_0;
    code_attrs_off;
    code_reverse;
    code_cursor_left ].

(** [count * return_str], where the repetition returns: Python raises
    [OverflowError] when the count or the length of the product does not
    fit a signed 64-bit index ([count_in_range] below). *)
Definition times (count : nat) (return_str : text) : text :=
  concat (repeat return_str count).

(** Lines 499-596, on the calls that raise nothing: [return_str] is free
    of backslashes ([literal_template] below), as the default and the line
    terminators the callers pass are, and the count of the first
    insert-line sequence is one [int] and the repetition accept
    ([count_in_range] below). *)
Definition strip_ansi_escape_codes (string_buffer : text) (return_str : text) : text :=
  let output := string_buffer in
  let output := foldl (fun output ansi_esc_code => re_sub ansi_esc_code [] output)
                      output code_set in
  let output := re_sub code_next_line return_str output in
  let insert_line_match := re_search code_insert_line output in
  match insert_line_match with
  | Some (_, _, groups) =>
      let count := int (default [] (groups !! 0%nat)) in
      re_sub code_insert_line (times count return_str) output
  | None => output
  end.

(** The default of [return_str]. *)
Definition LF : text := ["010"%char].

(** [re.sub] compiles its replacement as a template in which the
    backslash, and nothing else, is special.  A replacement without a
    backslash is inserted as it stands, which is what [re_sub] does. *)
Definition literal_template (repl : text) : Prop :=
  Forall (fun c => c ≠ "092"%char) repl.

(** [insert_line_match.group(1)] of line 590, when line 588 finds a match:
    the digits the function converts with [int]. *)
Definition insert_line_group (string_buffer : text) (return_str : text) : option text :=
  let output := string_buffer in
  let output := foldl (fun output ansi_esc_code => re_sub ansi_esc_code [] output)
                      output code_set in
  let output := re_sub code_next_line return_str output in
  match re_search code_insert_line output with
  | Some (_, _, groups) => Some (default [] (groups !! 0%nat))
  | None => None
  end.

(** Lines 590-591 raise on some matches, where [int] and [times] have a
    value: [int] refuses a string of more than 4300 digits (the
    interpreter's default limit, [ValueError]), and [count * return_str]
    needs the count and the length of the product to fit the signed
    64-bit index of a 64-bit interpreter ([OverflowError]); memory is
    taken as sufficient for a product that fits.  [digits] is in range
    when neither raise happens. *)
Definition count_in_range (digits : text) (return_str : text) : Prop :=
  (Z.of_nat (length digits) ≤ 4300)%Z
  ∧ (Z.of_nat (int digits) < 2 ^ 63)%Z
  ∧ (Z.of_nat (int digits) * Z.of_nat (length return_str) < 2 ^ 63)%Z.

End Ansi.

(** ** utilities.py: the structured-data functions *)

Module StructuredData.

Definition result_bind {A B} (r : result A) (k : A → result B) : result B :=
  match r with Return a => k a | Raise e => Raise e end.

Notation "'try!' x ':=' r 'in' k" := (result_bind r (fun x => k))
  (at level 10, x name, r at level 100, k at level 200).

(** What a structured-data function hands back: parsed data, or the text
    it was given. *)
Inductive hook_output (D : Type) :=
| Structured (data : D)
| Unchanged (raw_output : string).
Arguments Structured {D} data.
Arguments Unchanged {D} raw_output.

(** [str.lower] on code points below 256. *)
Definition lower_char (c : ascii) : ascii :=
  let n := nat_of_ascii c in
  if ((65 <=? n) && (n <=? 90) || (192 <=? n) && (n <=? 222) && negb (n =? 215))%nat
  then ascii_of_nat (n + 32) else c.

Fixpoint lower (s : string) : string :=
  match s with
  | EmptyString => EmptyString
  | String c s => String (lower_char c) (lower s)
  end.

Fixpoint ends_with_slash (s : string) : bool :=
  match s with
  | EmptyString => false
  | String c EmptyString => bool_decide (c = "/"%char)
  | String _ s => ends_with_slash s
  end.

(** [os.path.join(a, b)] for a relative [b] (POSIX). *)
Definition path_join (a b : string) : string :=
  match a with
  | EmptyString => b
  | _ => if ends_with_slash a then a +:+ b else a +:+ "/" +:+ b
  end.

(** A [CliTable] after [ParseCmd]: its header and its rows. *)
Record CliTable := {
  header : list string;
  table_rows : list (list pyval);
}.

(** What the functions take from the interpreter's environment and from
    the packages they import; none of it is part of the modelled sources. *)
Record Env := {
  (** [os.environ.get("NET_TEXTFSM")] *)
  NET_TEXTFSM : option string;
  (** [os.path.expanduser], [os.path.isfile], [os.path.isdir], [os.path.abspath] *)
  expanduser : string → string;
  isfile : string → bool;
  isdir : string → bool;
  abspath : string → string;
  (** the directory [importresources_path(package="ntc_templates",
      resource="templates")] yields, or the exception it raises *)
  ntc_templates : result string;
  (** [Path(p).name] and [Path(p).parents[0]] *)
  path_name : string → string;
  path_parents_0 : string → result string;
  (** [clitable.CliTable(index_file, template_dir)]: the constructor
      returns or raises.  The index file is absent in the single-template
      call. *)
  CliTable_init : option string → string → result ();
  (** [textfsm_obj.ParseCmd(raw_output, attributes, templates)] on the
      table constructed from the first two arguments: the parsed table or
      the exception raised. *)
  ParseCmd : option string → string → string → option (gmap string string)
             → option string → result CliTable;
  (** whether [from ttp import ttp] succeeded *)
  TTP_INSTALLED : bool;
  (** [ttp(data, template)], [parse(one=True)], [result(format="raw")] *)
  ttp_result : string → string → result pyval;
}.

(** Lines 266-274: the message, line by line. *)
Definition template_dir_msg : string :=
  NL +:+
  "Directory containing TextFSM index file not found." +:+ NL +:+
  NL +:+
  "Please set the NET_TEXTFSM environment variable to point at the directory containing your TextFSM" +:+ NL +:+
  "index file." +:+ NL +:+
  NL +:+
  "Alternatively, `pip install ntc-templates` (if using ntc-templates)." +:+ NL +:+
  NL.

Section WithEnv.
Context (env : Env).

(** Lines 251-305. *)
Definition get_template_dir (_skip_ntc_package : bool) : result string :=
  try! template_dir :=
    match NET_TEXTFSM env with
    | Some template_dir =>
        let template_dir := expanduser env template_dir in
        let index := path_join template_dir "index" in
        if negb (isfile env index)
        then Return (path_join template_dir "templates")
        else Return template_dir
    | None =>
        let attempt :=
          try! posix_path := ntc_templates env in
          if _skip_ntc_package then Raise ModuleNotFoundError
          else Return posix_path in
        match attempt with
        | Raise ModuleNotFoundError =>
            let home_dir := expanduser env "~" in
            Return (path_join (path_join home_dir "ntc-templates") "templates")
        | other => other
        end
    end in
  let index := path_join template_dir "index" in
  if negb (isdir env template_dir) || negb (isfile env index)
  then Raise (ValueError template_dir_msg)
  else Return (abspath env template_dir).

(** The inner loop of [clitable_to_dict] (lines 313-314), from column
    [index] on. *)
Fixpoint row_to_dict (hdr : list string) (index : nat) (row : list pyval)
    (temp_dict : gmap string pyval) : result (gmap string pyval) :=
  match row with
  | [] => Return temp_dict
  | element :: row =>
      match hdr !! index with
      | None => Raise IndexError
      | Some name =>
          row_to_dict hdr (S index) row (<[lower name := element]> temp_dict)
      end
  end.

(** Lines 308-316. *)
Fixpoint rows_to_dicts (hdr : list string) (rows : list (list pyval))
  : result (list (gmap string pyval)) :=
  match rows with
  | [] => Return []
  | row :: rows =>
      try! temp_dict := row_to_dict hdr 0 row ∅ in
      try! objs := rows_to_dicts hdr rows in
      Return (temp_dict :: objs)
  end.

Definition clitable_to_dict (cli_table : CliTable) : result (list (gmap string pyval)) :=
  rows_to_dicts (header cli_table) (table_rows cli_table).

(** Lines 319-340.  [textfsm_obj] is the table as constructed, that is
    the first two arguments of [ParseCmd] here. *)
Definition _textfsm_parse (index_file : option string) (template_dir : string)
    (raw_output : string) (attrs : gmap string string) (template_file : option string)
  : result (hook_output (list (gmap string pyval))) :=
  let body :=
    try! table :=
      match template_file with
      | Some template_file =>
          ParseCmd env index_file template_dir raw_output None (Some template_file)
      | None => ParseCmd env index_file template_dir raw_output (Some attrs) None
      end in
    try! structured_data := clitable_to_dict table in
    match structured_data with
    | [] => Return (Unchanged raw_output)
    | _ => Return (Structured structured_data)
    end in
  match body with
  | Raise FileNotFoundError | Raise CliTableError => Return (Unchanged raw_output)
  | other => other
  end.

(** Lines 343-377. *)
Definition get_structured_data (raw_output : string)
    (platform command template : option string)
  : result (hook_output (list (gmap string pyval))) :=
  let attrs : gmap string string :=
    match platform, command with
    | Some platform, Some command =>
        <["Platform" := platform]> (<["Command" := command]> ∅)
    | _, _ => ∅
    end in
  match template with
  | None =>
      if bool_decide (attrs = ∅)
      then Raise (ValueError "Either 'platform/command' or 'template' must be specified.")
      else
        try! template_dir := get_template_dir false in
        let index_file := path_join template_dir "index" in
        try! textfsm_obj := CliTable_init env (Some index_file) template_dir in
        _textfsm_parse (Some index_file) template_dir raw_output attrs None
  | Some template =>
      let template_path := expanduser env template in
      let template_file := path_name env template_path in
      try! template_dir_path := path_parents_0 env template_path in
      try! textfsm_obj := CliTable_init env None template_dir_path in
      _textfsm_parse None template_dir_path raw_output attrs (Some template_file)
  end.

(** [v[0]] *)
Definition subscript_0 (v : pyval) : result pyval :=
  match v with
  | PList (x :: _) => Return x
  | PList [] => Raise IndexError
  | PStr (String c _) => Return (PStr (String c EmptyString))
  | PStr EmptyString => Raise IndexError
  | PDict _ => Raise KeyError
  | PNone | PBool _ | PInt _ => Raise TypeError
  end.

(** Line 389: the two adjacent literals of the message. *)
Definition ttp_msg : string :=
  (NL +:+ "TTP is not installed. Please PIP install ttp:" +:+ NL)
  +:+ ("pip install ttp" +:+ NL).

(** Lines 380-407.  Assertions are taken as enabled. *)
Definition get_structured_data_ttp (raw_output : string) (template : option string)
  : result (hook_output pyval) :=
  if negb (TTP_INSTALLED env) then Raise (ValueError ttp_msg)
  else
    let body : result (option (hook_output pyval)) :=
      match template with
      | None | Some EmptyString => Return None
      | Some template =>
          try! ttp_output := ttp_result env raw_output template in
          try! ttp_output := subscript_0 ttp_output in
          try! ttp_output := subscript_0 ttp_output in
          match ttp_output with
          | PDict [] => Return (Some (Unchanged raw_output))
          | PList _ => Return (Some (Structured ttp_output))
          | _ => Raise AssertionError
          end
      end in
    match body with
    | Return (Some out) => Return out
    | Return None => Return (Unchanged raw_output)
    | Raise e => if is_Exception e then Return (Unchanged raw_output) else Raise e
    end.
End WithEnv.

End StructuredData.

(** ** Connection objects *)

Module Conn.

(** A method call on a connection: it may change the connection and either
    returns or raises; what it changed stays changed when it raises. *)
Definition M (St A : Type) : Type := St → result A * St.

Definition ret {St A} (a : A) : M St A := fun s => (Return a, s).
Definition raise {St A} (e : exn) : M St A := fun s => (Raise e, s).
Definition bind {St A B} (m : M St A) (k : A → M St B) : M St B :=
  fun s => match m s with
           | (Return a, s') => k a s'
           | (Raise e, s') => (Raise e, s')
           end.

Declare Scope conn_scope.
Delimit Scope conn_scope with conn.
Notation "'let*' x ':=' m 'in' k" := (bind m (fun x => k))
  (at level 10, x name, m at level 100, k at level 200) : conn_scope.
Notation "'run' m 'in' k" := (bind m (fun _ => k))
  (at level 10, m at level 100, k at level 200) : conn_scope.

(** What the drivers below inherit from [CiscoBaseConnection] and
    [BaseConnection]; those classes are not part of the modelled sources,
    so their methods are the interface a connection state has to offer. *)
Class Connection (St : Type) := {
  (** [self.write_channel(out_data)] *)
  write_channel : string → M St ();
  (** [self.normalize_cmd(command)] *)
  normalize_cmd : string → M St string;
  (** [self.read_until_pattern(pattern=...)] *)
  read_until_pattern : string → M St string;
  (** [self.read_until_prompt_or_pattern(pattern=..., re_flags=...)] *)
  read_until_prompt_or_pattern : string → Z → M St string;
  (** the inherited [check_enable_mode()], called without arguments *)
  inherited_check_enable_mode : M St bool;
  (** [super().check_config_mode(check_string=..., pattern=...)] *)
  super_check_config_mode : string → string → M St bool;
}.

End Conn.

(** ** mellanox/mellanox_mlnxos_ssh.py *)

Module MellanoxMlnxosSSH.
Import Conn.
Local Open Scope conn_scope.

(** [re.IGNORECASE] *)
Definition IGNORECASE : Z := 2.

Section Driver.
Context {St : Type} `{Connection St}.

(** [check_enable_mode] is not overridden by the driver. *)
Definition check_enable_mode : M St bool := inherited_check_enable_mode.

(** Lines 11-23. *)
Definition enable (cmd : string) (pattern : string) (re_flags : Z) : M St string :=
  let output := "" in
  let* in_enable := check_enable_mode in
  if negb in_enable then
    let* line := normalize_cmd cmd in
    run write_channel line in
    let* data := read_until_prompt_or_pattern pattern re_flags in
    let output := output +:+ data in
    let* in_enable := check_enable_mode in
    if negb in_enable then raise (ValueError "Failed to enter enable mode.")
    else ret output
  else ret output.

(** The call [enable()] with the defaults of the signature. *)
Definition enable_default : M St string := enable "enable" "#" IGNORECASE.

(** Lines 30-33. *)
Definition check_config_mode (check_string pattern : string) : M St bool :=
  super_check_config_mode check_string pattern.

(** The call [self.check_config_mode()] with the defaults of line 31. *)
Definition check_config_mode_default : M St bool := check_config_mode "(config" "#".

(** The [while] loop of lines 56-62, started with [check_count] and
    [output] as they stand.  [fuel] bounds the number of turns the model
    may take; [None] means the bound was reached with the loop still
    running ([while_loop_fuel] below: it never is with more than
    [check_count + 1] turns of fuel). *)
Fixpoint while_loop (exit_config pattern : string)
    (fuel : nat) (check_count : Z) (output : string) (s : St)
  : option (result (string * Z) * St) :=
  match fuel with
  | O => None
  | S fuel =>
      if (check_count >=? 0)%Z then
        match check_config_mode_default s with
        | (Raise e, s) => Some (Raise e, s)
        | (Return true, s) =>
            match (let* line := normalize_cmd exit_config in
                   run write_channel line in
                   read_until_pattern pattern) s with
            | (Raise e, s) => Some (Raise e, s)
            | (Return data, s) =>
                while_loop exit_config pattern fuel (check_count - 1)%Z (output +:+ data) s
            end
        | (Return false, s) => Some (Return (output, check_count), s)
        end
      else Some (Return (output, check_count), s)
  end.

(** Lines 49-69.  [log.debug] leaves the connection alone. *)
Definition exit_config_mode (exit_config pattern : string) (fuel : nat) (s : St)
  : option (result string * St) :=
  let output := "" in
  let check_count := 12%Z in
  match while_loop exit_config pattern fuel check_count output s with
  | None => None
  | Some (Raise e, s) => Some (Raise e, s)
  | Some (Return (output, _), s) =>
      Some ((let* in_config := check_config_mode_default in
             if in_config then raise (ValueError "Failed to exit configuration mode")
             else ret output) s)
  end.

(** The call [exit_config_mode()] with the defaults of line 49. *)
Definition exit_config_mode_default : nat → St → option (result string * St) :=
  exit_config_mode "exit" "#".
End Driver.

End MellanoxMlnxosSSH.

(** ** sixwind/sixwind_os.py *)

Module SixwindOSBase.
Import Conn.

Section Driver.
Context {St : Type}.

(** Lines 94-97: [check_enable_mode(self, *args, **kwargs)]. *)
Definition check_enable_mode (args : list pyval) (kwargs : gmap string pyval)
  : M St bool := ret true.

(** Lines 99-102: [enable(self, *args, **kwargs)]. *)
Definition enable (args : list pyval) (kwargs : gmap string pyval)
  : M St string := ret "".

(** Lines 104-107: [exit_enable_mode(self, *args, **kwargs)]. *)
Definition exit_enable_mode (args : list pyval) (kwargs : gmap string pyval)
  : M St string := ret "".

(** Lines 16-18: [disable_paging(self, *args, **kwargs)]. *)
Definition disable_paging (args : list pyval) (kwargs : gmap string pyval)
  : M St string := ret "".
End Driver.

End SixwindOSBase.

(** ** A simulated device *)

Module Sim.
Import Conn.

(** A device whose configuration mode is [depth] contexts deep: each
    [exit] line it receives closes one of them.  [sent] is everything
    written to the channel, oldest first. *)
Record device := {
  depth : nat;
  enabled : bool;
  accepts_enable : bool;
  sent : list string;
}.

(** The line terminator the simulated session uses. *)
Definition RETURN : string := String "010" "".

Definition receive (line : string) (d : device) : device :=
  {| depth := if bool_decide (line = "exit" +:+ RETURN) then pred (depth d) else depth d;
     enabled := if bool_decide (line = "enable" +:+ RETURN)
                then accepts_enable d || enabled d else enabled d;
     accepts_enable := accepts_enable d;
     sent := sent d ++ [line] |}.

#[export] Instance device_connection : Connection device := {|
  write_channel line := fun d => (Return (), receive line d);
  normalize_cmd cmd := ret (cmd +:+ RETURN);
  read_until_pattern pattern := ret pattern;
  read_until_prompt_or_pattern pattern re_flags := ret pattern;
  inherited_check_enable_mode := fun d => (Return (enabled d), d);
  super_check_config_mode check_string pattern := fun d => (Return (0 <? depth d)%nat, d);
|}.

(** A device in configuration mode that needs exactly [k] exits. *)
Definition nested (k : nat) : device :=
  {| depth := k; enabled := true; accepts_enable := true; sent := [] |}.

(** A device at the unprivileged prompt; [ok] tells whether it will let
    the session into enable mode. *)
Definition unprivileged (ok : bool) : device :=
  {| depth := 0; enabled := false; accepts_enable := ok; sent := [] |}.

End Sim.

(** * Properties *)

(** ** SHOW_RUN_MAPPER *)

Module ShowRunFacts.
Import ShowRun.

Lemma SHOW_RUN_MAPPER_items_NoDup : NoDup (SHOW_RUN_MAPPER_items.*1).
Proof. by_evaluation. Qed.

(** The base dictionary holds exactly the pairs of the display. *)
Lemma SHOW_RUN_MAPPER_base_lookup (k v : string) :
  SHOW_RUN_MAPPER_base !! k = Some v ↔ (k, v) ∈ SHOW_RUN_MAPPER_items.
Proof.
  assert (Hall : SHOW_RUN_MAPPER_base = list_to_map SHOW_RUN_MAPPER_items).
  { by_evaluation. }
  rewrite Hall. symmetry.
  apply elem_of_list_to_map, SHOW_RUN_MAPPER_items_NoDup.
Qed.

(** What one turn of the loop leaves in place. *)
Lemma expand_step_lookup (d : gmap string string) (kv : string * string) (j : string) :
  expand_step d kv !! j =
    if decide (kv.1 +:+ "_ssh" = j) then Some kv.2
    else if decide (kv.1 = j) then Some kv.2 else d !! j.
Proof.
  unfold expand_step. cbn zeta.
  rewrite lookup_insert. case_decide; [done|].
  rewrite lookup_insert. by case_decide.
Qed.

(** Every pair of the display survives the whole loop, under both keys. *)
Lemma SHOW_RUN_MAPPER_closed_items :
  Forall (fun kv : string * string =>
            SHOW_RUN_MAPPER !! kv.1 = Some kv.2
            ∧ SHOW_RUN_MAPPER !! (kv.1 +:+ "_ssh") = Some kv.2)
         SHOW_RUN_MAPPER_items.
Proof.
  by_evaluation.
Qed.

(** C10. After module initialisation, every vendor key [k] of the base
    show-run mapping is a key of [SHOW_RUN_MAPPER], so is [k + "_ssh"], and
    both map to the command the base mapping gives for [k]. *)
Theorem SHOW_RUN_MAPPER_ssh_closure (k v : string) :
  SHOW_RUN_MAPPER_base !! k = Some v →
  SHOW_RUN_MAPPER !! k = Some v ∧ SHOW_RUN_MAPPER !! (k +:+ "_ssh") = Some v.
Proof.
  intros Hk. apply SHOW_RUN_MAPPER_base_lookup in Hk.
  pose proof SHOW_RUN_MAPPER_closed_items as Hall.
  rewrite Forall_forall in Hall.
  exact (Hall (k, v) Hk).
Qed.

Lemma SHOW_RUN_MAPPER_ssh_closure_huawei :
  SHOW_RUN_MAPPER_base !! "huawei" = Some "display current-configuration"
  ∧ SHOW_RUN_MAPPER !! "huawei" = Some "display current-configuration"
  ∧ SHOW_RUN_MAPPER !! "huawei_ssh" = Some "display current-configuration".
Proof.
  assert (H : SHOW_RUN_MAPPER_base !! "huawei" = Some "display current-configuration")
    by (vm_compute; reflexivity).
  split; [exact H|].
  exact (SHOW_RUN_MAPPER_ssh_closure "huawei" "display current-configuration" H).
Defined.

End ShowRunFacts.

(** ** select_cmd_verify *)

Module CmdVerifyFacts.
Import CmdVerify.

Section Precedence.
Context {Self R : Type} (global_cmd_verify : Self → pyval).
Implicit Types (func : @callable Self R) (kwargs : gmap string pyval).

(** With the global flag unset the call goes through as it was made. *)
Lemma select_cmd_verify_unset func self args kwargs :
  global_cmd_verify self = PNone →
  select_cmd_verify global_cmd_verify func self args kwargs = func self args kwargs.
Proof. intros Hg. unfold select_cmd_verify. by rewrite Hg. Qed.

(** With the global flag set the keyword is overwritten, and only it. *)
Lemma select_cmd_verify_set func self args kwargs :
  global_cmd_verify self ≠ PNone →
  select_cmd_verify global_cmd_verify func self args kwargs
    = func self args (<["cmd_verify" := global_cmd_verify self]> kwargs).
Proof.
  intros Hg. unfold select_cmd_verify.
  destruct (global_cmd_verify self); simpl; congruence.
Qed.

End Precedence.

Section Binding.
Context {Self R : Type} (global_cmd_verify : Self → pyval).

(** C1, as the code has it.  For an operation wrapped by
    [select_cmd_verify]:
    - when the session's [global_cmd_verify] is not [None], the operation
      receives [cmd_verify] equal to the global flag whatever value the
      call passed by keyword, and a call that passes [cmd_verify]
      positionally raises [TypeError], since the wrapper writes the
      keyword beside it;
    - when it is [None], the call is handed on as it was made: the
      operation receives the value the call passed, by keyword or by
      position, or its own default when the call passed none.
    The other keyword arguments reach the operation unchanged. *)
Theorem select_cmd_verify_precedence
    (position : option nat) (default : pyval)
    (body : Self → list pyval → pyval → gmap string pyval → R)
    (self : Self) (args : list pyval) (kwargs : gmap string pyval) :
  let call := select_cmd_verify global_cmd_verify (operation position default body)
                self args kwargs in
  let positional := position ≫= (args !!.) in
  let others := delete "cmd_verify" kwargs in
  (global_cmd_verify self ≠ PNone → positional = None →
     call = Return (body self args (global_cmd_verify self) others))
  ∧ (global_cmd_verify self ≠ PNone → is_Some positional → call = Raise TypeError)
  ∧ (global_cmd_verify self = PNone →
     call = operation position default body self args kwargs)
  ∧ (global_cmd_verify self = PNone → positional = None →
     ∀ v, kwargs !! "cmd_verify" = Some v → call = Return (body self args v others))
  ∧ (global_cmd_verify self = PNone →
     ∀ v, positional = Some v → kwargs !! "cmd_verify" = None →
          call = Return (body self args v others))
  ∧ (global_cmd_verify self = PNone → positional = None →
     kwargs !! "cmd_verify" = None → call = Return (body self args default others)).
Proof.
  cbn zeta. split_and!.
  - intros Hg Hpos. rewrite select_cmd_verify_set by done.
    unfold operation, bind_cmd_verify.
    by rewrite Hpos, lookup_insert_eq, delete_insert_eq.
  - intros Hg [v Hpos]. rewrite select_cmd_verify_set by done.
    unfold operation, bind_cmd_verify.
    by rewrite Hpos, lookup_insert_eq.
  - intros Hg. by rewrite select_cmd_verify_unset.
  - intros Hg Hpos v Hv. rewrite select_cmd_verify_unset by done.
    unfold operation, bind_cmd_verify. by rewrite Hpos, Hv.
  - intros Hg v Hpos Hv. rewrite select_cmd_verify_unset by done.
    unfold operation, bind_cmd_verify. by rewrite Hpos, Hv.
  - intros Hg Hpos Hv. rewrite select_cmd_verify_unset by done.
    unfold operation, bind_cmd_verify. by rewrite Hpos, Hv.
Qed.
End Binding.

(** An operation declared as [def op(self, command_string, cmd_verify=False)]
    that hands back the value bound to [cmd_verify]; the connection is
    reduced to its [global_cmd_verify] attribute. *)
Definition received : pyval → list pyval → gmap string pyval → result pyval :=
  operation (Some 1%nat) (PBool false) (fun self args cmd_verify others => cmd_verify).

(** The cases of the precedence on that operation: a keyword overridden
    by the global flag, a keyword and a default used when the flag is
    [None], a positional value colliding with the flag. *)
Lemma select_cmd_verify_precedence_received :
  select_cmd_verify id received (PBool true) [PStr "show version"]
    {["cmd_verify" := PBool false]} = Return (PBool true)
  ∧ select_cmd_verify id received (PBool true) [PStr "show version"; PBool false] ∅
    = Raise TypeError
  ∧ select_cmd_verify id received PNone [PStr "show version"]
    {["cmd_verify" := PBool true]} = Return (PBool true)
  ∧ select_cmd_verify id received PNone [PStr "show version"; PBool true] ∅
    = Return (PBool true)
  ∧ select_cmd_verify id received PNone [PStr "show version"] ∅ = Return (PBool false).
Proof.
  split_and!.
  - exact (proj1 (select_cmd_verify_precedence id (Some 1%nat) (PBool false)
             (fun self args cmd_verify others => cmd_verify)
             (PBool true) [PStr "show version"] {["cmd_verify" := PBool false]})
             ltac:(discriminate) eq_refl).
  - exact (proj1 (proj2 (select_cmd_verify_precedence id (Some 1%nat) (PBool false)
             (fun self args cmd_verify others => cmd_verify)
             (PBool true) [PStr "show version"; PBool false] ∅))
             ltac:(discriminate) (mk_is_Some _ _ eq_refl)).
  - exact (proj1 (proj2 (proj2 (proj2 (select_cmd_verify_precedence id (Some 1%nat)
             (PBool false) (fun self args cmd_verify others => cmd_verify)
             PNone [PStr "show version"] {["cmd_verify" := PBool true]}))))
             eq_refl eq_refl (PBool true) eq_refl).
  - exact (proj1 (proj2 (proj2 (proj2 (proj2 (select_cmd_verify_precedence id
             (Some 1%nat) (PBool false) (fun self args cmd_verify others => cmd_verify)
             PNone [PStr "show version"; PBool true] ∅)))))
             eq_refl (PBool true) eq_refl eq_refl).
  - exact (proj2 (proj2 (proj2 (proj2 (proj2 (select_cmd_verify_precedence id
             (Some 1%nat) (PBool false) (fun self args cmd_verify others => cmd_verify)
             PNone [PStr "show version"] ∅)))))
             eq_refl eq_refl eq_refl).
Defined.

(** The claim as it stands fails: with the global flag set to [False], a
    call that passes [True] for [cmd_verify] positionally does not reach
    the operation with [cmd_verify] equal to the global flag; it raises
    [TypeError]. *)
Lemma select_cmd_verify_positional_value :
  select_cmd_verify id received (PBool false) [PStr "show version"; PBool true] ∅
    = Raise TypeError
  ∧ select_cmd_verify id received (PBool false) [PStr "show version"; PBool true] ∅
    ≠ Return (PBool false).
Proof. split; [reflexivity|discriminate]. Qed.

(** The assertions of [test_cmd_verify_decorator], with the connection
    reduced to its [global_cmd_verify] attribute. *)
Definition kw (b : bool) : gmap string pyval := {["cmd_verify" := PBool b]}.

Example test_cmd_verify_decorator_global_False :
  (bogus_func id (PBool false) [] (kw true)).2 !! "cmd_verify" = Some (PBool false)
  ∧ (bogus_func id (PBool false) [] (kw false)).2 !! "cmd_verify" = Some (PBool false).
Proof. split; vm_compute; reflexivity. Qed.

Example test_cmd_verify_decorator_global_True :
  (bogus_func id (PBool true) [] (kw true)).2 !! "cmd_verify" = Some (PBool true)
  ∧ (bogus_func id (PBool true) [] (kw false)).2 !! "cmd_verify" = Some (PBool true).
Proof. split; vm_compute; reflexivity. Qed.

Example test_cmd_verify_decorator_global_None :
  (bogus_func id PNone [] (kw true)).2 !! "cmd_verify" = Some (PBool true)
  ∧ (bogus_func id PNone [] (kw false)).2 !! "cmd_verify" = Some (PBool false).
Proof. split; vm_compute; reflexivity. Qed.

End CmdVerifyFacts.

(** ** Mellanox MLNX-OS: enable and exit_config_mode *)

Module MellanoxFacts.
Import Conn MellanoxMlnxosSSH.

Lemma string_app_assoc (a b c : string) : (a +:+ b) +:+ c = a +:+ (b +:+ c).
Proof.
  induction a as [|x a IH]; [reflexivity|].
  change (String x ((a +:+ b) +:+ c) = String x (a +:+ (b +:+ c))).
  by rewrite IH.
Qed.

Lemma string_app_empty_r (a : string) : a +:+ "" = a.
Proof.
  induction a as [|x a IH]; [reflexivity|].
  change (String x (a +:+ "") = String x a). by rewrite IH.
Qed.

Section AnyConnection.
Context {St : Type} `{Connection St}.
Implicit Types (s : St) (output : string) (check_count : Z).

(** The loop stops by itself: with more than [check_count + 1] turns of
    fuel the model never reaches its bound, and more fuel changes
    nothing. *)
Lemma while_loop_fuel exit_config pattern fuel check_count output s :
  (Z.to_nat (check_count + 1) < fuel)%nat →
  while_loop exit_config pattern fuel check_count output s
    = while_loop exit_config pattern (S (Z.to_nat (check_count + 1))) check_count output s
  ∧ is_Some (while_loop exit_config pattern fuel check_count output s).
Proof.
  revert check_count output s.
  induction fuel as [|fuel IH]; intros check_count output s Hfuel; [lia|].
  set (n := Z.to_nat (check_count + 1)) in *.
  cbn [while_loop].
  destruct (check_count >=? 0)%Z eqn:Hc; [|by eauto].
  apply Z.geb_le in Hc.
  destruct (check_config_mode_default s) as [[[|]|e] s1]; [|by eauto..].
  destruct ((let* line := normalize_cmd exit_config in
             run write_channel line in read_until_pattern pattern)%conn s1)
    as [[data|e] s2]; [|by eauto].
  assert (Hn : n = S (Z.to_nat (check_count - 1 + 1))) by (subst n; lia).
  destruct (IH (check_count - 1)%Z (output +:+ data) s2) as [Heq Hsome]; [lia|].
  rewrite Heq. split; [|by rewrite <- Heq].
  destruct (IH (check_count - 1)%Z (output +:+ data) s2) as [Heq' _]; [lia|].
  rewrite Hn. reflexivity.
Qed.

(** [exit_config_mode] always comes back, and fourteen turns of fuel
    are as good as any larger number. *)
Lemma exit_config_mode_fuel exit_config pattern fuel s :
  (14 ≤ fuel)%nat →
  exit_config_mode exit_config pattern fuel s = exit_config_mode exit_config pattern 14 s
  ∧ is_Some (exit_config_mode exit_config pattern fuel s).
Proof.
  intros Hfuel. unfold exit_config_mode. cbn zeta.
  destruct (while_loop_fuel exit_config pattern fuel 12 "" s) as [Heq Hsome];
    [simpl; lia|].
  change (S (Z.to_nat (12 + 1))) with 14%nat in Heq.
  rewrite Heq in *. split; [done|].
  destruct Hsome as [[[[output c]|e] s1] ->]; by eauto.
Qed.

(** C6. [enable()]: when [check_enable_mode()] already holds, nothing
    more is done to the connection (the state is the one the check left)
    and the empty string is returned; otherwise the normalised command is
    written, the channel is read until the prompt or the pattern, and
    [check_enable_mode()] is evaluated again: the text read is returned
    when it holds, [ValueError("Failed to enter enable mode.")] is raised
    when it does not. *)
Theorem enable_behaviour (cmd pattern : string) (re_flags : Z) (s : St) :
  (∀ s1, check_enable_mode s = (Return true, s1) →
         enable cmd pattern re_flags s = (Return "", s1))
  ∧ (∀ s1 line s2 s3 data s4 ok s5,
       check_enable_mode s = (Return false, s1) →
       normalize_cmd cmd s1 = (Return line, s2) →
       write_channel line s2 = (Return (), s3) →
       read_until_prompt_or_pattern pattern re_flags s3 = (Return data, s4) →
       check_enable_mode s4 = (Return ok, s5) →
       enable cmd pattern re_flags s
         = (if ok then Return data
            else Raise (ValueError "Failed to enter enable mode."), s5)).
Proof.
  split.
  - intros s1 Hcheck. unfold enable, bind. cbn zeta. by rewrite Hcheck.
  - intros s1 line s2 s3 data s4 ok s5 Hcheck Hnorm Hwrite Hread Hagain.
    unfold enable, bind. cbn zeta.
    rewrite Hcheck. cbn. rewrite Hnorm, Hwrite, Hread, Hagain.
    by destruct ok.
Qed.

(** An exception of the first check, of the write or of the read leaves
    [enable] as it is. *)
Lemma enable_propagates_check (cmd pattern : string) (re_flags : Z) s e s1 :
  check_enable_mode s = (Raise e, s1) →
  enable cmd pattern re_flags s = (Raise e, s1).
Proof. intros Hcheck. unfold enable, bind. cbn zeta. by rewrite Hcheck. Qed.
End AnyConnection.

(** *** Against the simulated device *)

Import Sim.

(** [n] exit lines, as they reach the channel. *)
Definition exits (n : nat) : list string := repeat ("exit" +:+ RETURN) n.

(** [n] prompts, as [output] gathers them. *)
Fixpoint prompts (n : nat) : string :=
  match n with O => "" | S n => "#" +:+ prompts n end.

(** The device after [n] exits reached it. *)
Definition after_exits (n : nat) (d : device) : device :=
  {| depth := depth d - n; enabled := enabled d;
     accepts_enable := accepts_enable d; sent := sent d ++ exits n |}.

Lemma receive_exit (d : device) :
  receive ("exit" +:+ RETURN) d
  = {| depth := pred (depth d); enabled := enabled d;
       accepts_enable := accepts_enable d; sent := sent d ++ exits 1 |}.
Proof. reflexivity. Qed.

(** The loop on a device [depth d] contexts deep: it sends one exit per
    context until none is left or [check_count] has gone below zero. *)
Lemma while_loop_device fuel (check_count : Z) (output : string) (d : device) :
  (-1 ≤ check_count)%Z →
  (Z.to_nat (check_count + 1) < fuel)%nat →
  let n := depth d `min` Z.to_nat (check_count + 1) in
  while_loop "exit" "#" fuel check_count output d
  = Some (Return (output +:+ prompts n, (check_count - Z.of_nat n)%Z), after_exits n d).
Proof.
  revert check_count output d.
  induction fuel as [|fuel IH]; intros check_count output d Hc Hfuel; [lia|].
  cbn zeta. cbn [while_loop].
  destruct (check_count >=? 0)%Z eqn:Hge.
  - apply Z.geb_le in Hge.
    destruct d as [[|k] en acc log].
    + cbn. rewrite string_app_empty_r, Z.sub_0_r.
      unfold after_exits; cbn. by rewrite app_nil_r.
    + change (check_config_mode_default _)
        with (Return true, Build_device (S k) en acc log).
      cbv beta iota.
      change ((let* line := normalize_cmd "exit" in
               run write_channel line in read_until_pattern "#")%conn _)
        with (Return "#", receive ("exit" +:+ RETURN) (Build_device (S k) en acc log)).
      cbv beta iota. rewrite receive_exit.
      rewrite IH by (cbn [depth]; lia).
      cbn [depth enabled accepts_enable sent pred].
      assert (Hn : S k `min` Z.to_nat (check_count + 1)
                   = S (k `min` Z.to_nat (check_count - 1 + 1))) by lia.
      rewrite Hn. cbn [prompts].
      rewrite string_app_assoc.
      replace (check_count - 1 - Z.of_nat (k `min` Z.to_nat (check_count - 1 + 1)))%Z
        with (check_count - Z.of_nat (S (k `min` Z.to_nat (check_count - 1 + 1))))%Z
        by lia.
      do 2 f_equal.
      unfold after_exits; cbn [depth enabled accepts_enable sent].
      rewrite <- app_assoc. reflexivity.
  - rewrite Z.geb_leb in Hge. apply Z.leb_gt in Hge.
    assert (Hn : depth d `min` Z.to_nat (check_count + 1) = 0%nat) by lia.
    rewrite Hn. cbn [prompts]. rewrite string_app_empty_r, Z.sub_0_r.
    destruct d; unfold after_exits; cbn. by rewrite Nat.sub_0_r, app_nil_r.
Qed.

(** What [exit_config_mode()] does to a device that needs [k] exits: it
    sends [min k 13] of them; it returns when [k ≤ 13] and raises when
    [k > 13]. *)
Lemma exit_config_mode_device (k fuel : nat) :
  (14 ≤ fuel)%nat →
  exit_config_mode_default fuel (nested k)
  = Some (if bool_decide (k ≤ 13)%nat then Return (prompts k)
          else Raise (ValueError "Failed to exit configuration mode"),
          after_exits (k `min` 13) (nested k)).
Proof.
  intros Hfuel. unfold exit_config_mode_default, exit_config_mode. cbn zeta.
  rewrite while_loop_device by (cbn; lia).
  change (Z.to_nat (12 + 1)) with 13%nat. cbn [nested depth].
  unfold bind, check_config_mode_default, check_config_mode. cbn.
  replace (k - k `min` 13)%nat with (k - 13)%nat by lia.
  case_bool_decide as Hk.
  - replace (k - 13)%nat with 0%nat by lia. cbn.
    replace (k `min` 13) with k by lia. reflexivity.
  - destruct (k - 13)%nat eqn:Hd; [lia|]. reflexivity.
Qed.

(** C2. The loop of [exit_config_mode] is not bounded by 12 attempts: on a
    device thirteen contexts deep it writes the exit command thirteen
    times and then returns.  (Fourteen contexts are the first to raise.) *)
Theorem exit_config_mode_thirteen_attempts :
  exit_config_mode_default 14 (nested 13)
  = Some (Return (prompts 13), after_exits 13 (nested 13))
  ∧ sent (after_exits 13 (nested 13)) = exits 13
  ∧ length (exits 13) = 13%nat
  ∧ exit_config_mode_default 14 (nested 14)
    = Some (Raise (ValueError "Failed to exit configuration mode"),
            after_exits 13 (nested 14)).
Proof.
  split; [|split; [|split]].
  - rewrite exit_config_mode_device by lia. reflexivity.
  - reflexivity.
  - reflexivity.
  - rewrite exit_config_mode_device by lia. reflexivity.
Qed.

(** C7. On a device that needs exactly 13 exits, more than the ceiling of
    12, [exit_config_mode()] returns normally and [check_config_mode()] is
    false afterwards. *)
Theorem exit_config_mode_returns_beyond_12 :
  (12 < 13)%nat
  ∧ ∃ output d,
      exit_config_mode_default 14 (nested 13) = Some (Return output, d)
      ∧ check_config_mode_default d = (Return false, d).
Proof.
  split; [lia|].
  exists (prompts 13), (after_exits 13 (nested 13)).
  split; [|reflexivity].
  rewrite exit_config_mode_device by lia. reflexivity.
Qed.

(** For every number of exits up to 13 the call returns and leaves the
    device out of configuration mode; for every larger number it raises. *)
Lemma exit_config_mode_device_outcome (k fuel : nat) :
  (14 ≤ fuel)%nat →
  ((k ≤ 13)%nat →
     ∃ output d, exit_config_mode_default fuel (nested k) = Some (Return output, d)
                 ∧ check_config_mode_default d = (Return false, d))
  ∧ ((13 < k)%nat →
     ∃ d, exit_config_mode_default fuel (nested k)
          = Some (Raise (ValueError "Failed to exit configuration mode"), d)).
Proof.
  intros Hfuel. rewrite exit_config_mode_device by done. split; intros Hk.
  - rewrite bool_decide_true by done. eexists _, _. split; [reflexivity|].
    unfold check_config_mode_default, check_config_mode. cbn.
    replace (k - k `min` 13)%nat with 0%nat by lia. reflexivity.
  - rewrite bool_decide_false by lia. eauto.
Qed.

(** [enable()] on the simulated device: already enabled, let in, kept out. *)
Lemma enable_behaviour_device :
  enable "enable" "#" IGNORECASE (nested 0) = (Return "", nested 0)
  ∧ enable "enable" "#" IGNORECASE (unprivileged true)
    = (Return "#", receive ("enable" +:+ RETURN) (unprivileged true))
  ∧ enable "enable" "#" IGNORECASE (unprivileged false)
    = (Raise (ValueError "Failed to enter enable mode."),
       receive ("enable" +:+ RETURN) (unprivileged false)).
Proof.
  split; [|split].
  - exact (proj1 (enable_behaviour "enable" "#" IGNORECASE (nested 0))
             (nested 0) eq_refl).
  - exact (proj2 (enable_behaviour "enable" "#" IGNORECASE (unprivileged true))
             _ _ _ _ _ _ true _ eq_refl eq_refl eq_refl eq_refl eq_refl).
  - exact (proj2 (enable_behaviour "enable" "#" IGNORECASE (unprivileged false))
             _ _ _ _ _ _ false _ eq_refl eq_refl eq_refl eq_refl eq_refl).
Defined.

End MellanoxFacts.

(** ** 6WIND: no enable tier *)

Module SixwindFacts.
Import Conn.

(** C8. For the 6WIND profile, whatever the arguments: [check_enable_mode]
    returns [True], [enable] and [exit_enable_mode] return the empty
    string, and none of the three touches the connection, so nothing is
    written to the channel. *)
Theorem sixwind_no_enable_tier {St : Type}
    (args : list pyval) (kwargs : gmap string pyval) (s : St) :
  SixwindOSBase.check_enable_mode args kwargs s = (Return true, s)
  ∧ SixwindOSBase.enable args kwargs s = (Return "", s)
  ∧ SixwindOSBase.exit_enable_mode args kwargs s = (Return "", s).
Proof. repeat split. Qed.

(** On the simulated device the channel log stays as it was. *)
Lemma sixwind_no_enable_tier_device :
  (SixwindOSBase.enable [PStr "enable"] ∅ (Sim.unprivileged true)).2
  = Sim.unprivileged true
  ∧ Sim.sent (SixwindOSBase.exit_enable_mode [] ∅ (Sim.unprivileged true)).2 = [].
Proof.
  split.
  - exact (f_equal snd (proj1 (proj2
      (sixwind_no_enable_tier [PStr "enable"] ∅ (Sim.unprivileged true))))).
  - exact (f_equal (fun r => Sim.sent (snd r)) (proj2 (proj2
      (sixwind_no_enable_tier [] ∅ (Sim.unprivileged true))))).
Defined.

End SixwindFacts.

(** ** The structured-data functions *)

Module StructuredDataFacts.
Import StructuredData.

(** The [ParseCmd] call [_textfsm_parse] makes. *)
Definition parse_call (env : Env) (index_file : option string) (template_dir : string)
    (raw_output : string) (attrs : gmap string string) (template_file : option string)
  : result CliTable :=
  match template_file with
  | Some template_file =>
      ParseCmd env index_file template_dir raw_output None (Some template_file)
  | None => ParseCmd env index_file template_dir raw_output (Some attrs) None
  end.

(** An environment with nothing installed: no template directory, no
    [ntc_templates] package, no TTP; [ParseCmd] fails on a malformed
    template the way TextFSM does. *)
Definition bare_env : Env := {|
  NET_TEXTFSM := None;
  expanduser p := p;
  isfile _ := false;
  isdir _ := false;
  abspath p := p;
  ntc_templates := Raise ModuleNotFoundError;
  path_name p := p;
  path_parents_0 _ := Return ".";
  CliTable_init _ _ := Return ();
  ParseCmd _ _ _ _ _ := Raise (OtherException "TextFSMTemplateError");
  TTP_INSTALLED := false;
  ttp_result _ _ := Raise (OtherException "TemplateError");
|}.

(** An environment with TTP installed whose parser finds nothing, and a
    template directory whose index matches no template. *)
Definition quiet_env : Env := {|
  NET_TEXTFSM := Some "/templates";
  expanduser p := p;
  isfile _ := true;
  isdir _ := true;
  abspath p := p;
  ntc_templates := Raise ModuleNotFoundError;
  path_name p := p;
  path_parents_0 _ := Return ".";
  CliTable_init _ _ := Return ();
  ParseCmd _ _ _ attrs _ :=
    match attrs with
    | Some _ => Raise CliTableError
    | None => Return {| header := ["Interface"]; table_rows := [] |}
    end;
  TTP_INSTALLED := true;
  ttp_result _ _ := Return (PList [PList [PDict []]]);
|}.

Section Fallback.
Context (env : Env).
Implicit Types (raw_output : string) (e : exn).

Lemma _textfsm_parse_caught index_file template_dir raw_output attrs template_file :
  parse_call env index_file template_dir raw_output attrs template_file
    = Raise FileNotFoundError
  ∨ parse_call env index_file template_dir raw_output attrs template_file
    = Raise CliTableError →
  _textfsm_parse env index_file template_dir raw_output attrs template_file
    = Return (Unchanged raw_output).
Proof.
  unfold _textfsm_parse, parse_call.
  intros [Hp|Hp]; destruct template_file; rewrite Hp; reflexivity.
Qed.

Lemma _textfsm_parse_empty index_file template_dir raw_output attrs template_file table :
  parse_call env index_file template_dir raw_output attrs template_file = Return table →
  clitable_to_dict table = Return [] →
  _textfsm_parse env index_file template_dir raw_output attrs template_file
    = Return (Unchanged raw_output).
Proof.
  unfold _textfsm_parse, parse_call.
  intros Hp Hd; destruct template_file; rewrite Hp; cbn; rewrite Hd; reflexivity.
Qed.

Lemma _textfsm_parse_uncaught index_file template_dir raw_output attrs template_file e :
  parse_call env index_file template_dir raw_output attrs template_file = Raise e →
  e ≠ FileNotFoundError → e ≠ CliTableError →
  _textfsm_parse env index_file template_dir raw_output attrs template_file = Raise e.
Proof.
  unfold _textfsm_parse, parse_call.
  intros Hp H1 H2; destruct template_file; rewrite Hp; cbn; by destruct e.
Qed.

(** A failed subscript raises an [Exception]. *)
Lemma subscript_0_raises (v : pyval) e :
  subscript_0 v = Raise e → is_Exception e = true.
Proof. destruct v as [| | |[|]|[|]|]; intros; simplify_eq/=; done. Qed.

(** With TTP installed, [get_structured_data_ttp] comes back with a list
    or with the text it was given, unless the parser raised something
    that is not an [Exception]. *)
Lemma get_structured_data_ttp_installed raw_output template :
  TTP_INSTALLED env = true →
  get_structured_data_ttp env raw_output template = Return (Unchanged raw_output)
  ∨ (∃ l, get_structured_data_ttp env raw_output template = Return (Structured (PList l)))
  ∨ (∃ e tmpl, template = Some tmpl ∧ ttp_result env raw_output tmpl = Raise e
               ∧ is_Exception e = false
               ∧ get_structured_data_ttp env raw_output template = Raise e).
Proof.
  intros Http. unfold get_structured_data_ttp. rewrite Http. cbn [negb].
  destruct template as [[|c tmpl]|]; [by left| |by left].
  destruct (ttp_result env raw_output (String c tmpl)) as [v|e] eqn:Hres; cbn.
  - destruct (subscript_0 v) as [v1|e1] eqn:H1; cbn.
    + destruct (subscript_0 v1) as [v2|e2] eqn:H2; cbn.
      * destruct v2 as [| | | |l|[|]]; cbn; eauto.
      * rewrite (subscript_0_raises _ _ H2). by left.
    + rewrite (subscript_0_raises _ _ H1). by left.
  - destruct (is_Exception e) eqn:He; [by left|].
    right; right. eauto 10.
Qed.

Lemma get_structured_data_ttp_missing raw_output template :
  TTP_INSTALLED env = false →
  get_structured_data_ttp env raw_output template = Raise (ValueError ttp_msg).
Proof. intros Http. unfold get_structured_data_ttp. by rewrite Http. Qed.

Lemma get_structured_data_unspecified raw_output platform command :
  platform = None ∨ command = None →
  get_structured_data env raw_output platform command None
    = Raise (ValueError "Either 'platform/command' or 'template' must be specified.").
Proof.
  unfold get_structured_data.
  intros [-> | ->]; [|destruct platform]; reflexivity.
Qed.

Lemma get_structured_data_no_template_dir raw_output platform command e :
  get_template_dir env false = Raise e →
  get_structured_data env raw_output (Some platform) (Some command) None = Raise e.
Proof.
  intros Hdir. unfold get_structured_data.
  rewrite bool_decide_false.
  - rewrite Hdir. reflexivity.
  - intros Hempty.
    apply (f_equal (fun m : gmap string string => m !! "Platform")) in Hempty.
    by rewrite lookup_insert_eq, lookup_empty in Hempty.
Qed.
End Fallback.

Lemma get_template_dir_nothing_found (env : Env) (skip : bool) :
  (∀ p, isfile env p = false) →
  (∀ e, ntc_templates env = Raise e → e = ModuleNotFoundError) →
  get_template_dir env skip = Raise (ValueError template_dir_msg).
Proof.
  intros Hfile Hpkg. unfold get_template_dir.
  destruct (NET_TEXTFSM env) as [dir|].
  - rewrite Hfile. cbn. rewrite Hfile, orb_true_r. reflexivity.
  - destruct (ntc_templates env) as [posix_path|e] eqn:Hntc; cbn.
    + destruct skip; cbn; rewrite Hfile, orb_true_r; reflexivity.
    + rewrite (Hpkg e eq_refl). cbn. rewrite Hfile, orb_true_r. reflexivity.
Qed.

(** [clitable_to_dict] raises nothing but the [IndexError] of
    [cli_table.header[index]]. *)
Lemma row_to_dict_raises hdr index row (temp_dict : gmap string pyval) e :
  row_to_dict hdr index row temp_dict = Raise e → e = IndexError.
Proof.
  revert index temp_dict.
  induction row as [|element row IH]; intros index temp_dict; cbn; [done|].
  destruct (hdr !! index); [apply IH|congruence].
Qed.

Lemma clitable_to_dict_raises table e :
  clitable_to_dict table = Raise e → e = IndexError.
Proof.
  unfold clitable_to_dict. generalize (header table) as hdr.
  intros hdr. induction (table_rows table) as [|row rows IH]; cbn; [done|].
  destruct (row_to_dict hdr 0 row ∅) as [d|e'] eqn:Hrow; cbn.
  - destruct (rows_to_dicts hdr rows) as [ds|e'']; cbn; [done|].
    intros [= <-]. by apply IH.
  - intros [= <-]. by eapply row_to_dict_raises.
Qed.

(** What the caller of a TextFSM parse gets, [out], against what
    [ParseCmd] did, [parsed]: the text when [ParseCmd] raises one of the
    two exceptions caught or when the table has no row, the rows when
    there are some, and every other exception as it was raised. *)
Definition degrades (raw_output : string) (parsed : result CliTable)
    (out : result (hook_output (list (gmap string pyval)))) : Prop :=
  (parsed = Raise FileNotFoundError ∨ parsed = Raise CliTableError →
     out = Return (Unchanged raw_output))
  ∧ (∀ table, parsed = Return table → clitable_to_dict table = Return [] →
     out = Return (Unchanged raw_output))
  ∧ (∀ table row rows,
       parsed = Return table → clitable_to_dict table = Return (row :: rows) →
       out = Return (Structured (row :: rows)))
  ∧ (∀ table e, parsed = Return table → clitable_to_dict table = Raise e →
     out = Raise e)
  ∧ (∀ e, parsed = Raise e → e ≠ FileNotFoundError → e ≠ CliTableError →
     out = Raise e).

Lemma _textfsm_parse_degrades env index_file template_dir raw_output attrs template_file :
  degrades raw_output
    (parse_call env index_file template_dir raw_output attrs template_file)
    (_textfsm_parse env index_file template_dir raw_output attrs template_file).
Proof.
  unfold degrades. split_and!.
  - apply _textfsm_parse_caught.
  - apply _textfsm_parse_empty.
  - unfold _textfsm_parse, parse_call.
    intros table row rows Hp Hd; destruct template_file; rewrite Hp; cbn;
      rewrite Hd; reflexivity.
  - unfold _textfsm_parse, parse_call.
    intros table e Hp Hd. pose proof (clitable_to_dict_raises _ _ Hd) as ->.
    destruct template_file; rewrite Hp; cbn; rewrite Hd; reflexivity.
  - apply _textfsm_parse_uncaught.
Qed.

(** [get_structured_data] with a platform and a command, step by step. *)
Lemma get_structured_data_by_index env raw_output platform command :
  get_structured_data env raw_output (Some platform) (Some command) None
  = try! template_dir := get_template_dir env false in
    try! textfsm_obj :=
      CliTable_init env (Some (path_join template_dir "index")) template_dir in
    _textfsm_parse env (Some (path_join template_dir "index")) template_dir raw_output
      (<["Platform" := platform]> (<["Command" := command]> ∅)) None.
Proof.
  unfold get_structured_data. rewrite bool_decide_false; [done|].
  intros Hempty.
  apply (f_equal (fun m : gmap string string => m !! "Platform")) in Hempty.
  by rewrite lookup_insert_eq, lookup_empty in Hempty.
Qed.

(** The steps of [get_structured_data_ttp] from the parser's raw result
    to the value it tests: [ttp_parser.result(format="raw")[0][0]]. *)
Definition ttp_output (env : Env) (raw_output template : string) : result pyval :=
  try! ttp_output := ttp_result env raw_output template in
  try! ttp_output := subscript_0 ttp_output in
  subscript_0 ttp_output.

Lemma get_structured_data_ttp_steps env raw_output template :
  TTP_INSTALLED env = true → template ≠ EmptyString →
  get_structured_data_ttp env raw_output (Some template)
  = match ttp_output env raw_output template with
    | Return (PDict []) => Return (Unchanged raw_output)
    | Return (PList l) => Return (Structured (PList l))
    | Return _ => Return (Unchanged raw_output)
    | Raise e => if is_Exception e then Return (Unchanged raw_output) else Raise e
    end.
Proof.
  intros Http Htmpl. unfold get_structured_data_ttp, ttp_output. rewrite Http.
  cbn [negb]. destruct template as [|c tmpl]; [done|].
  destruct (ttp_result env raw_output (String c tmpl)) as [v|e]; cbn; [|done].
  destruct (subscript_0 v) as [v1|e1]; cbn; [|done].
  destruct (subscript_0 v1) as [v2|e2]; cbn; [|done].
  by destruct v2 as [| | | |l|[|]].
Qed.

(** C3, as the code has it.  A failed parse gives the text back in some
    cases and raises in the others.
    - [_textfsm_parse] returns the text when [ParseCmd] raises
      [FileNotFoundError] or [CliTableError] and when the table has no
      row; it returns the rows when there are some; every other exception
      passes through it.
    - [get_structured_data] raises [ValueError] when no template is given
      and the platform or the command is missing, and when no template
      directory with an index file is found; it raises what
      [get_template_dir], [Path.parents] or the [CliTable] constructor
      raise; once the table is constructed it gives what [_textfsm_parse]
      gives, so the exceptions of [ParseCmd] other than the two caught
      pass through it too.
    - [get_structured_data_ttp] raises [ValueError] when TTP is not
      installed.  With TTP installed it returns the text when no template
      is given, when the parsed value is the empty dictionary, when it is
      not a list (the assertion fails), and when parsing raises an
      [Exception]; it returns the parsed value when it is a list; an
      exception that is not an [Exception] passes through. *)
Theorem structured_data_fallback (env : Env) (raw_output : string) :
  (∀ index_file template_dir attrs template_file,
     degrades raw_output
       (parse_call env index_file template_dir raw_output attrs template_file)
       (_textfsm_parse env index_file template_dir raw_output attrs template_file))
  ∧ (∀ platform command,
       platform = None ∨ command = None →
       get_structured_data env raw_output platform command None
       = Raise (ValueError "Either 'platform/command' or 'template' must be specified."))
  ∧ (∀ platform command,
       (∀ p, isfile env p = false) →
       (∀ e, ntc_templates env = Raise e → e = ModuleNotFoundError) →
       get_structured_data env raw_output (Some platform) (Some command) None
       = Raise (ValueError template_dir_msg))
  ∧ (∀ platform command,
       let out := get_structured_data env raw_output (Some platform) (Some command) None in
       let attrs := <["Platform" := platform]> (<["Command" := command]> ∅) in
       (∀ e, get_template_dir env false = Raise e → out = Raise e)
       ∧ (∀ template_dir,
            get_template_dir env false = Return template_dir →
            let index_file := path_join template_dir "index" in
            (∀ e, CliTable_init env (Some index_file) template_dir = Raise e →
                  out = Raise e)
            ∧ (CliTable_init env (Some index_file) template_dir = Return () →
               degrades raw_output
                 (parse_call env (Some index_file) template_dir raw_output attrs None)
                 out)))
  ∧ (∀ platform command template,
       let out := get_structured_data env raw_output platform command (Some template) in
       let template_path := expanduser env template in
       (∀ e, path_parents_0 env template_path = Raise e → out = Raise e)
       ∧ (∀ template_dir,
            path_parents_0 env template_path = Return template_dir →
            (∀ e, CliTable_init env None template_dir = Raise e → out = Raise e)
            ∧ (CliTable_init env None template_dir = Return () →
               ∀ attrs,
                 degrades raw_output
                   (parse_call env None template_dir raw_output attrs
                      (Some (path_name env template_path)))
                   out)))
  ∧ (∀ template,
       TTP_INSTALLED env = false →
       get_structured_data_ttp env raw_output template = Raise (ValueError ttp_msg))
  ∧ (TTP_INSTALLED env = true →
       get_structured_data_ttp env raw_output None = Return (Unchanged raw_output)
       ∧ get_structured_data_ttp env raw_output (Some EmptyString)
         = Return (Unchanged raw_output)
       ∧ (∀ template,
            template ≠ EmptyString →
            let parsed := ttp_output env raw_output template in
            let out := get_structured_data_ttp env raw_output (Some template) in
            (parsed = Return (PDict []) → out = Return (Unchanged raw_output))
            ∧ (∀ l, parsed = Return (PList l) → out = Return (Structured (PList l)))
            ∧ (∀ v, parsed = Return v → v ≠ PDict [] → (∀ l, v ≠ PList l) →
                    out = Return (Unchanged raw_output))
            ∧ (∀ e, parsed = Raise e → is_Exception e = true →
                    out = Return (Unchanged raw_output))
            ∧ (∀ e, parsed = Raise e → is_Exception e = false → out = Raise e))).
Proof.
  split_and!.
  - intros. apply _textfsm_parse_degrades.
  - intros platform command. apply get_structured_data_unspecified.
  - intros platform command Hfile Hpkg.
    apply get_structured_data_no_template_dir.
    by apply get_template_dir_nothing_found.
  - intros platform command. cbv zeta. rewrite get_structured_data_by_index.
    split.
    + intros e ->. reflexivity.
    + intros template_dir ->. cbn [result_bind]. split.
      * intros e ->. reflexivity.
      * intros ->. cbn [result_bind]. apply _textfsm_parse_degrades.
  - intros platform command template. cbv zeta. unfold get_structured_data.
    split.
    + intros e ->. reflexivity.
    + intros template_dir ->. cbn [result_bind]. split.
      * intros e ->. reflexivity.
      * intros -> attrs. cbn [result_bind].
        pose proof (_textfsm_parse_degrades env None template_dir raw_output
                      (match platform, command with
                       | Some platform, Some command =>
                           <["Platform" := platform]> (<["Command" := command]> ∅)
                       | _, _ => ∅
                       end)
                      (Some (path_name env (expanduser env template)))) as Hd.
        exact Hd.
  - intros template. apply get_structured_data_ttp_missing.
  - intros Http. split_and!.
    + unfold get_structured_data_ttp. by rewrite Http.
    + unfold get_structured_data_ttp. by rewrite Http.
    + intros template Htmpl. cbv zeta.
      rewrite get_structured_data_ttp_steps by done.
      split_and!.
      * by intros ->.
      * by intros l ->.
      * intros v -> Hd Hl. destruct v as [| | | |l|[|]]; try done. by destruct (Hl l).
      * by intros e -> ->.
      * by intros e -> ->.
Qed.

(** An environment with TTP installed: the template [{{ broken] makes
    the parser raise, the template [interface {{ name }}] finds one
    interface, any other template finds nothing.  No TextFSM template
    directory. *)
Definition ttp_env : Env := {|
  NET_TEXTFSM := None;
  expanduser p := p;
  isfile _ := false;
  isdir _ := false;
  abspath p := p;
  ntc_templates := Raise ModuleNotFoundError;
  path_name p := p;
  path_parents_0 _ := Return ".";
  CliTable_init _ _ := Return ();
  ParseCmd _ _ _ _ _ := Raise (OtherException "TextFSMTemplateError");
  TTP_INSTALLED := true;
  ttp_result _ template :=
    if bool_decide (template = "{{ broken") then Raise (OtherException "AttributeError")
    else if bool_decide (template = "interface {{ name }}")
    then Return (PList [PList [PList [PDict [("name", PStr "Gi0/1")]]]])
    else Return (PList [PList [PDict []]]);
|}.

(** The fallbacks at work in [quiet_env] and [ttp_env], the raises in
    [bare_env]. *)
Lemma structured_data_fallback_examples :
  _textfsm_parse quiet_env (Some "/templates/index") "/templates" "Gi0/1 up" ∅ None
    = Return (Unchanged "Gi0/1 up")
  ∧ _textfsm_parse quiet_env None "." "Gi0/1 up" ∅ (Some "show.textfsm")
    = Return (Unchanged "Gi0/1 up")
  ∧ get_structured_data quiet_env "Gi0/1 up" (Some "cisco_ios") (Some "show ip int brief")
      None
    = Return (Unchanged "Gi0/1 up")
  ∧ get_structured_data bare_env "Gi0/1 up" None None (Some "show.textfsm")
    = Raise (OtherException "TextFSMTemplateError")
  ∧ get_structured_data bare_env "Gi0/1 up" (Some "cisco_ios") (Some "show ip int brief") None
    = Raise (ValueError template_dir_msg)
  ∧ get_structured_data_ttp bare_env "Gi0/1 up" (Some "template")
    = Raise (ValueError ttp_msg)
  ∧ get_structured_data_ttp quiet_env "Gi0/1 up" (Some "interface {{ name }}")
    = Return (Unchanged "Gi0/1 up")
  ∧ get_structured_data_ttp ttp_env "Gi0/1 up" (Some "{{ broken")
    = Return (Unchanged "Gi0/1 up")
  ∧ get_structured_data_ttp ttp_env "Gi0/1 up" (Some "interface {{ name }}")
    = Return (Structured (PList [PDict [("name", PStr "Gi0/1")]])).
Proof.
  pose proof (structured_data_fallback quiet_env "Gi0/1 up")
    as (Hparse & _ & _ & Hindex & _ & _ & Hquiet).
  pose proof (structured_data_fallback bare_env "Gi0/1 up")
    as (_ & _ & Hno_dir & _ & Htemplate & Hno_ttp & _).
  pose proof (structured_data_fallback ttp_env "Gi0/1 up") as (_ & _ & _ & _ & _ & _ & Http).
  split_and!.
  - apply (proj1 (Hparse (Some "/templates/index") "/templates" ∅ None)).
    right. reflexivity.
  - apply (proj1 (proj2 (Hparse None "." ∅ (Some "show.textfsm")))
             {| header := ["Interface"]; table_rows := [] |}); reflexivity.
  - destruct (Hindex "cisco_ios" "show ip int brief") as [_ Hdir].
    destruct (Hdir "/templates" eq_refl) as [_ Hinit].
    apply (proj1 (Hinit eq_refl)). right. reflexivity.
  - destruct (Htemplate None None "show.textfsm") as [_ Hdir].
    destruct (Hdir "." eq_refl) as [_ Hinit].
    apply (proj2 (proj2 (proj2 (proj2 (Hinit eq_refl ∅))))); [reflexivity|done|done].
  - apply Hno_dir.
    + reflexivity.
    + intros e He. injection He as <-. reflexivity.
  - apply Hno_ttp. reflexivity.
  - destruct (Hquiet eq_refl) as (_ & _ & Hrun).
    apply (proj1 (Hrun "interface {{ name }}" ltac:(done))). reflexivity.
  - destruct (Http eq_refl) as (_ & _ & Hrun).
    apply (proj1 (proj2 (proj2 (proj2 (Hrun "{{ broken" ltac:(done)))))
             (OtherException "AttributeError")); reflexivity.
  - destruct (Http eq_refl) as (_ & _ & Hrun).
    apply (proj1 (proj2 (Hrun "interface {{ name }}" ltac:(done)))). reflexivity.
Defined.

(** The claim as it stands fails: a parsing failure can raise past each
    of the three functions.  A malformed template makes [ParseCmd] raise
    an exception [_textfsm_parse] does not catch, and
    [get_structured_data] lets it through; without a template directory
    [get_structured_data] raises [ValueError]; without TTP
    [get_structured_data_ttp] raises [ValueError]. *)
Lemma structured_data_hook_raises :
  _textfsm_parse bare_env None "." "Gi0/1 up" ∅ (Some "show.textfsm")
    = Raise (OtherException "TextFSMTemplateError")
  ∧ get_structured_data bare_env "Gi0/1 up" None None (Some "show.textfsm")
    = Raise (OtherException "TextFSMTemplateError")
  ∧ get_structured_data bare_env "Gi0/1 up" (Some "cisco_ios") (Some "show ip int brief") None
    = Raise (ValueError template_dir_msg)
  ∧ get_structured_data bare_env "Gi0/1 up" None None None
    = Raise (ValueError "Either 'platform/command' or 'template' must be specified.")
  ∧ get_structured_data_ttp bare_env "Gi0/1 up" (Some "template")
    = Raise (ValueError ttp_msg).
Proof. repeat split. Qed.

End StructuredDataFacts.

(** ** The matcher against the language of a pattern *)

Module ReFacts.
Import Re.

(** [matches r w g g']: [r] matches exactly the text [w], and the groups
    captured so far grow from [g] to [g']. *)
Inductive matches : regex → text → list text → list text → Prop :=
| matches_chr c g : matches (Chr c) [c] g g
| matches_cls k c g : in_cls k c = true → matches (Cls k) [c] g g
| matches_plus k w g :
    w ≠ [] → Forall (fun c => in_cls k c = true) w → matches (Plus k) w g g
| matches_alt_l r1 r2 w g g' : matches r1 w g g' → matches (Alt r1 r2) w g g'
| matches_alt_r r1 r2 w g g' : matches r2 w g g' → matches (Alt r1 r2) w g g'
| matches_cat r1 r2 w1 w2 g g' g'' :
    matches r1 w1 g g' → matches r2 w2 g' g'' → matches (Cat r1 r2) (w1 ++ w2) g g''
| matches_grp r w g g' : matches r w g g' → matches (Grp r) w g (g' ++ [w]).

(** The language of a pattern, groups forgotten. *)
Definition lang (r : regex) (w : text) : Prop := ∃ g g', matches r w g g'.

Lemma matches_nonempty r w g g' : matches r w g g' → w ≠ [].
Proof.
  induction 1; try done.
  destruct w1; [done|]. discriminate.
Qed.

(** What is captured does not decide whether a text matches. *)
Lemma matches_any_groups r w g g' h : matches r w g g' → ∃ h', matches r w h h'.
Proof.
  intros Hm. revert h.
  induction Hm as [c g|k c g Hc|k w g Hw Hall|r1 r2 w g g' _ IH|r1 r2 w g g' _ IH
                   |r1 r2 w1 w2 g g' g'' _ IH1 _ IH2|r w g g' _ IH]; intros h.
  - eexists. constructor.
  - eexists. by constructor.
  - eexists. by constructor.
  - destruct (IH h) as [h' ?]. eexists. by apply matches_alt_l.
  - destruct (IH h) as [h' ?]. eexists. by apply matches_alt_r.
  - destruct (IH1 h) as [h' ?]. destruct (IH2 h') as [h'' ?].
    eexists. by eapply matches_cat.
  - destruct (IH h) as [h' ?]. eexists. by apply matches_grp.
Qed.

Section Matcher.
Context {A : Type}.
Implicit Types (cont : text → list text → option A) (s w : text) (g : list text).

Lemma match_plus_sound k s (cont1 : text → option A) v :
  match_plus k s cont1 = Some v →
  ∃ w s', s = w ++ s' ∧ w ≠ [] ∧ Forall (fun c => in_cls k c = true) w
          ∧ cont1 s' = Some v.
Proof.
  induction s as [|c s IH]; cbn; [done|].
  destruct (in_cls k c) eqn:Hc; [|done].
  destruct (match_plus k s cont1) as [v'|] eqn:Hm.
  - intros [= ->]. destruct (IH eq_refl) as (w & s' & -> & _ & Hall & Hk).
    exists (c :: w), s'. split_and!; auto.
  - intros Hk. exists [c], s. split_and!; auto.
Qed.

Lemma match_plus_complete k w s' (cont1 : text → option A) :
  w ≠ [] → Forall (fun c => in_cls k c = true) w → is_Some (cont1 s') →
  is_Some (match_plus k (w ++ s') cont1).
Proof.
  intros Hw Hall Hk. induction Hall as [|c w Hc Hall IH]; [done|].
  cbn. rewrite Hc.
  destruct w as [|c' w].
  - cbn in *. destruct (match_plus k s' cont1); eauto.
  - destruct IH as [v ->]; [done|]. eauto.
Qed.

(** Whatever the matcher finds is a match. *)
Lemma rmatch_sound r s g cont v :
  rmatch r s g cont = Some v →
  ∃ w s' g', s = w ++ s' ∧ matches r w g g' ∧ cont s' g' = Some v.
Proof.
  revert s g cont.
  induction r as [c|k|k|r1 IH1 r2 IH2|r1 IH1 r2 IH2|r IH]; intros s g cont; cbn.
  - destruct s as [|x s]; [done|]. case_bool_decide as Hx; [|done]. subst x.
    intros Hk. exists [c], s, g. split_and!; [done|constructor|done].
  - destruct s as [|x s]; [done|]. destruct (in_cls k x) eqn:Hx; [|done].
    intros Hk. exists [x], s, g. split_and!; [done|by constructor|done].
  - intros (w & s' & -> & Hw & Hall & Hk)%match_plus_sound.
    exists w, s', g. split_and!; [done|by constructor|done].
  - destruct (rmatch r1 s g cont) as [v1|] eqn:H1.
    + intros [= ->]. destruct (IH1 _ _ _ H1) as (w & s' & g' & -> & Hm & Hk).
      exists w, s', g'. split_and!; [done|by apply matches_alt_l|done].
    + intros H2. destruct (IH2 _ _ _ H2) as (w & s' & g' & -> & Hm & Hk).
      exists w, s', g'. split_and!; [done|by apply matches_alt_r|done].
  - intros H1. destruct (IH1 _ _ _ H1) as (w1 & s1 & g1 & -> & Hm1 & H2).
    destruct (IH2 _ _ _ H2) as (w2 & s2 & g2 & -> & Hm2 & Hk).
    exists (w1 ++ w2), s2, g2.
    split_and!; [by rewrite app_assoc|by eapply matches_cat|done].
  - intros H1. destruct (IH _ _ _ H1) as (w & s' & g' & -> & Hm & Hk).
    rewrite length_app, Nat.add_sub, take_app_length in Hk.
    exists w, s', (g' ++ [w]). split_and!; [done|by apply matches_grp|done].
Qed.

(** Whenever some match lets the continuation succeed, the matcher finds
    one (not necessarily that one: it goes by Python's order). *)
Lemma rmatch_complete r w s' g g' cont :
  matches r w g g' → is_Some (cont s' g') → is_Some (rmatch r (w ++ s') g cont).
Proof.
  intros Hm. revert s' cont.
  induction Hm as [c g|k c g Hc|k w g Hw Hall|r1 r2 w g g' _ IH|r1 r2 w g g' _ IH
                   |r1 r2 w1 w2 g g' g'' _ IH1 _ IH2|r w g g' _ IH];
    intros s' cont Hk; cbn.
  - by rewrite bool_decide_true.
  - by rewrite Hc.
  - by apply match_plus_complete.
  - destruct (IH s' cont Hk) as [v ->]. eauto.
  - destruct (rmatch r1 (w ++ s') g cont); [eauto|]. by apply IH.
  - rewrite <- app_assoc. apply IH1. by apply IH2.
  - apply IH. by rewrite length_app, Nat.add_sub, take_app_length.
Qed.
End Matcher.

(** [fullmatch] decides the language. *)
Lemma fullmatch_lang r w : fullmatch r w = true ↔ lang r w.
Proof.
  unfold fullmatch. rewrite bool_decide_eq_true. split.
  - intros [v (w' & s' & g' & -> & Hm & Hk)%rmatch_sound].
    destruct s'; [|done]. rewrite app_nil_r. by exists [], g'.
  - intros (g & g' & Hm).
    destruct (matches_any_groups _ _ _ _ [] Hm) as [h' Hm'].
    rewrite <- (app_nil_r w). eapply rmatch_complete; [done|]. by eexists.
Qed.

(** A match at the head of [s] is a word of the language and a prefix of [s]. *)
Lemma match_at_sound r s n groups :
  match_at r s = Some (n, groups) →
  ∃ w s', s = w ++ s' ∧ lang r w ∧ n = length w.
Proof.
  unfold match_at.
  intros (w & s' & g' & -> & Hm & [= <- <-])%rmatch_sound.
  exists w, s'. split_and!; [done|by exists [], g'|].
  by rewrite length_app, Nat.add_sub.
Qed.

Lemma match_at_complete r w s' : lang r w → is_Some (match_at r (w ++ s')).
Proof.
  intros (g & g' & Hm).
  destruct (matches_any_groups _ _ _ _ [] Hm) as [h' Hm'].
  unfold match_at. eapply rmatch_complete; [done|]. by eexists.
Qed.

(** No pattern matches the empty string. *)
Lemma match_at_positive r s n groups : match_at r s = Some (n, groups) → (0 < n)%nat.
Proof.
  intros (w & s' & -> & (g & g' & Hm) & ->)%match_at_sound.
  apply matches_nonempty in Hm. destruct w; [done|]. cbn. lia.
Qed.

(** *** Substitution where nothing matches, and past a match *)

Lemma search_from_None_inv r start c s :
  search_from r start (c :: s) = None →
  match_at r (c :: s) = None ∧ search_from r (S start) s = None.
Proof.
  cbn [search_from]. destruct (match_at r (c :: s)) as [[n g]|]; [done|]. auto.
Qed.

Lemma search_from_start r start start' s :
  search_from r start s = None → search_from r start' s = None.
Proof.
  revert start start'. induction s as [|c s IH]; intros start start'; cbn [search_from].
  - destruct (match_at r []) as [[n g]|]; done.
  - destruct (match_at r (c :: s)) as [[n g]|]; [done|]. apply IH.
Qed.

(** [re.sub] leaves a text alone in which [re.search] finds nothing. *)
Lemma re_sub_no_match r repl s : re_search r s = None → re_sub r repl s = s.
Proof.
  unfold re_sub, re_search. generalize 0%nat at 1 as start.
  induction s as [|c s IH]; intros start Hs.
  - cbn in *. by destruct (match_at r []) as [[n g]|].
  - apply search_from_None_inv in Hs as [Hhere Hs]. cbn. rewrite Hhere.
    f_equal. by eapply IH.
Qed.

(** Passing over the rest of a match. *)
Lemma sub_from_skip r repl w s :
  sub_from r repl (length w) (w ++ s) = sub_from r repl 0 s.
Proof. induction w as [|c w IH]; cbn; [done|]. exact IH. Qed.

End ReFacts.

(** ** strip_ansi_escape_codes *)

Module AnsiFacts.
Import Re ReFacts Ansi.

(** *** The shape of the control sequences *)

(** The characters between [ESC] and the last character of a sequence. *)
Definition middle (c : ascii) : bool :=
  in_cls Digit c || bool_decide (c = "["%char) || bool_decide (c = ";"%char)
  || bool_decide (c = "?"%char).

(** The characters a sequence ends with. *)
Definition final (c : ascii) : bool := negb (middle c) && negb (bool_decide (c = ESC)).

(** A pattern that matches middle characters only. *)
Fixpoint param_only (r : regex) : bool :=
  match r with
  | Chr c => middle c
  | Cls _ | Plus _ => true
  | Alt r1 r2 | Cat r1 r2 => param_only r1 && param_only r2
  | Grp r => param_only r
  end.

(** Middle characters, then one final character. *)
Fixpoint tail_shaped (r : regex) : bool :=
  match r with
  | Chr c => final c
  | Cat r1 r2 => param_only r1 && tail_shaped r2
  | _ => false
  end.

(** [ESC], middle characters, one final character. *)
Definition code_shaped (r : regex) : bool :=
  match r with
  | Cat (Chr c) r2 => bool_decide (c = ESC) && tail_shaped r2
  | _ => false
  end.

(** Every pattern of the function: the list it deletes, and the two it
    replaces. *)
Definition all_codes : list regex := code_set ++ [code_next_line; code_insert_line].

Lemma all_codes_shaped : Forall (fun p => code_shaped p = true) all_codes.
Proof. repeat constructor. Qed.

Lemma code_set_shaped : Forall (fun p => code_shaped p = true) code_set.
Proof. repeat constructor. Qed.

(** A text of the shape [ESC middle* final]. *)
Definition esc_seq (w : text) : Prop :=
  ∃ mid fin, w = ESC :: mid ++ [fin]
             ∧ Forall (fun c => middle c = true) mid ∧ final fin = true.

Lemma in_cls_middle k c : in_cls k c = true → middle c = true.
Proof.
  unfold middle, in_cls. destruct k; intros Hc.
  - by rewrite Hc.
  - apply andb_true_iff in Hc as [H1 H2].
    apply Nat.leb_le in H2. rewrite H1. cbn.
    replace (nat_of_ascii c <=? 57)%nat with true; [done|].
    symmetry. apply Nat.leb_le. lia.
Qed.

Lemma middle_not_ESC c : middle c = true → c ≠ ESC.
Proof. intros Hm ->. discriminate Hm. Qed.

Lemma final_not_ESC c : final c = true → c ≠ ESC.
Proof.
  unfold final. intros [_ Hc%negb_true_iff]%andb_true_iff.
  by apply bool_decide_eq_false in Hc.
Qed.

Lemma final_not_middle c : final c = true → middle c = false.
Proof. unfold final. by intros [Hc%negb_true_iff _]%andb_true_iff. Qed.

Lemma param_only_sound r w g g' :
  param_only r = true → matches r w g g' → Forall (fun c => middle c = true) w.
Proof.
  intros Hr Hm.
  induction Hm as [c g|k c g Hc|k w g Hw Hall|r1 r2 w g g' _ IH|r1 r2 w g g' _ IH
                   |r1 r2 w1 w2 g g' g'' _ IH1 _ IH2|r w g g' _ IH]; cbn in Hr.
  - by repeat constructor.
  - repeat constructor. by eapply in_cls_middle.
  - eapply Forall_impl; [done|]. intros c. apply in_cls_middle.
  - apply andb_true_iff in Hr as [? ?]. auto.
  - apply andb_true_iff in Hr as [? ?]. auto.
  - apply andb_true_iff in Hr as [? ?]. apply Forall_app; auto.
  - auto.
Qed.

Lemma tail_shaped_sound r w g g' :
  tail_shaped r = true → matches r w g g' →
  ∃ mid fin, w = mid ++ [fin] ∧ Forall (fun c => middle c = true) mid ∧ final fin = true.
Proof.
  intros Hr Hm.
  induction Hm as [c g|k c g Hc|k w g Hw Hall|r1 r2 w g g' _ IH|r1 r2 w g g' _ IH
                   |r1 r2 w1 w2 g g' g'' Hm1 _ _ IH2|r w g g' _ IH]; cbn in Hr;
    try done.
  - by exists [], c.
  - apply andb_true_iff in Hr as [Hr1 Hr2].
    destruct (IH2 Hr2) as (mid & fin & -> & Hmid & Hfin).
    exists (w1 ++ mid), fin. split_and!; [by rewrite app_assoc| |done].
    apply Forall_app. split; [|done]. by eapply param_only_sound.
Qed.

(** The words of a shaped pattern have the shape. *)
Lemma code_shaped_sound p w : code_shaped p = true → lang p w → esc_seq w.
Proof.
  intros Hp (g & g' & Hm).
  destruct p as [| | | |[c| | | | |] r2|]; try done. cbn in Hp.
  apply andb_true_iff in Hp as [Hc%bool_decide_eq_true Hr2]. subst c.
  inversion Hm as [| | | | |? ? w1 w2 ? g1 ? Hm1 Hm2|]; subst.
  inversion Hm1; subst.
  destruct (tail_shaped_sound _ _ _ _ Hr2 Hm2) as (mid & fin & -> & Hmid & Hfin).
  by exists mid, fin.
Qed.

(** A shaped pattern needs [ESC] to start. *)
Lemma match_at_not_ESC p c s : code_shaped p = true → c ≠ ESC → match_at p (c :: s) = None.
Proof.
  intros Hp Hc.
  destruct p as [| | | |[c'| | | | |] r2|]; try done. cbn in Hp.
  apply andb_true_iff in Hp as [Hc'%bool_decide_eq_true _]. subst c'.
  unfold match_at. cbn. by rewrite bool_decide_false.
Qed.

Lemma match_at_nil p : match_at p [] = None.
Proof.
  destruct (match_at p []) as [[n g]|] eqn:Hm; [|done].
  apply match_at_sound in Hm as (w & s' & Hs & (h & h' & Hw) & _).
  apply matches_nonempty in Hw. by destruct w.
Qed.

(** Two sequences that start the same text are the same sequence. *)
Lemma esc_seq_prefix_unique w1 s1 w2 s2 :
  esc_seq w1 → esc_seq w2 → w1 ++ s1 = w2 ++ s2 → w1 = w2 ∧ s1 = s2.
Proof.
  intros (mid1 & fin1 & -> & Hmid1 & Hfin1) (mid2 & fin2 & -> & Hmid2 & Hfin2) Heq.
  cbn in Heq. injection Heq as Heq. rewrite <- !app_assoc in Heq. cbn in Heq.
  revert mid2 Hmid2 Heq.
  induction Hmid1 as [|c mid1 Hc _ IH]; intros mid2 Hmid2 Heq.
  - destruct Hmid2 as [|c2 mid2 Hc2 _]; cbn in Heq.
    + by injection Heq as -> ->.
    + injection Heq as -> _. apply final_not_middle in Hfin1. congruence.
  - destruct Hmid2 as [|c2 mid2 Hc2 Hmid2]; cbn in Heq.
    + injection Heq as -> _. apply final_not_middle in Hfin2. congruence.
    + injection Heq as -> Heq. destruct (IH _ Hmid2 Heq) as [Hw ->].
      injection Hw as Hw. cbn. by rewrite Hw.
Qed.

(** At the head of a sequence a shaped pattern matches the whole sequence
    or nothing. *)
Lemma match_at_esc_seq p w s :
  code_shaped p = true → esc_seq w →
  match match_at p (w ++ s) with
  | Some (n, _) => n = length w ∧ lang p w
  | None => ¬ lang p w
  end.
Proof.
  intros Hp Hw.
  destruct (match_at p (w ++ s)) as [[n g]|] eqn:Hm.
  - apply match_at_sound in Hm as (w' & s' & Heq & Hlang & ->).
    pose proof (code_shaped_sound _ _ Hp Hlang) as Hw'.
    destruct (esc_seq_prefix_unique _ _ _ _ Hw Hw' Heq) as [-> _]. done.
  - intros Hlang. apply (match_at_complete p w s) in Hlang as [v Hv]. congruence.
Qed.

(** *** One substitution pass over plain text and sequences *)

(** A text without the escape character. *)
Definition ESC_free (t : text) : Prop := Forall (fun c => c ≠ ESC) t.

Lemma esc_seq_body w : esc_seq w → ∃ body, w = ESC :: body ∧ ESC_free body.
Proof.
  intros (mid & fin & -> & Hmid & Hfin). exists (mid ++ [fin]). split; [done|].
  apply Forall_app. split.
  - eapply Forall_impl; [done|]. intros c. apply middle_not_ESC.
  - repeat constructor. by apply final_not_ESC.
Qed.

Lemma sub_from_plain p repl t s :
  code_shaped p = true → ESC_free t →
  sub_from p repl 0 (t ++ s) = t ++ sub_from p repl 0 s.
Proof.
  intros Hp Ht. induction Ht as [|c t Hc _ IH]; [done|].
  cbn. rewrite match_at_not_ESC by done. by rewrite IH.
Qed.

Lemma sub_from_hit p repl w s :
  code_shaped p = true → esc_seq w → lang p w →
  sub_from p repl 0 (w ++ s) = repl ++ sub_from p repl 0 s.
Proof.
  intros Hp Hw Hlang.
  pose proof (match_at_esc_seq p w s Hp Hw) as Hm.
  destruct (esc_seq_body w Hw) as (body & -> & _).
  cbn [app sub_from]. cbn [app] in Hm.
  destruct (match_at p (ESC :: body ++ s)) as [[n g]|]; [|done].
  destruct Hm as [-> _]. cbn [length]. by rewrite sub_from_skip.
Qed.

Lemma sub_from_miss p repl w s :
  code_shaped p = true → esc_seq w → ¬ lang p w →
  sub_from p repl 0 (w ++ s) = w ++ sub_from p repl 0 s.
Proof.
  intros Hp Hw Hlang.
  pose proof (match_at_esc_seq p w s Hp Hw) as Hm.
  destruct (esc_seq_body w Hw) as (body & -> & Hbody).
  cbn [app sub_from]. cbn [app] in Hm.
  destruct (match_at p (ESC :: body ++ s)) as [[n g]|]; [by destruct Hm|].
  by rewrite sub_from_plain.
Qed.


(** *** Texts built from sequences and plain text *)

Inductive piece :=
| Plain (t : text)   (** text between the sequences *)
| Code (w : text).   (** one control sequence *)

Definition piece_text (x : piece) : text :=
  match x with Plain t => t | Code w => w end.

(** The text the pieces spell. *)
Definition flatten (xs : list piece) : text := concat (piece_text <$> xs).


(** [w] is a control sequence of the catalog: one of the patterns of
    [code_set] matches it from end to end. *)
Definition in_catalog (w : text) : bool := existsb (fun p => fullmatch p w) code_set.

(** A piece the pass over [p] leaves in place. *)
Definition survives (p : regex) (x : piece) : bool :=
  match x with Plain _ => true | Code w => negb (fullmatch p w) end.

(** Plain text without [ESC], sequences of the right shape. *)
Definition tidy (x : piece) : Prop :=
  match x with Plain t => ESC_free t | Code w => esc_seq w end.

Lemma re_sub_pieces p xs :
  code_shaped p = true → Forall tidy xs →
  re_sub p [] (flatten xs) = flatten (List.filter (survives p) xs).
Proof.
  intros Hp Hxs. unfold re_sub, flatten.
  induction Hxs as [|x xs Hx _ IH]; cbn [fmap list_fmap concat List.filter].
  - cbn. by rewrite match_at_nil.
  - destruct x as [t|w]; cbn [survives piece_text tidy] in *.
    + rewrite sub_from_plain by done. by rewrite IH.
    + destruct (fullmatch p w) eqn:Hfull; cbn [negb].
      * apply fullmatch_lang in Hfull. rewrite sub_from_hit by done. by rewrite IH.
      * rewrite sub_from_miss; [by rewrite IH|done|done|].
        rewrite <- fullmatch_lang. congruence.
Qed.

Lemma filter_tidy (f : piece → bool) xs : Forall tidy xs → Forall tidy (List.filter f xs).
Proof.
  induction 1 as [|x xs Hx _ IH]; cbn; [done|]. destruct (f x); auto.
Qed.

(** The deleting loop, pass after pass. *)
Lemma strip_loop_pieces codes xs :
  Forall (fun p => code_shaped p = true) codes → Forall tidy xs →
  foldl (fun output p => re_sub p [] output) (flatten xs) codes
  = flatten (List.filter (fun x => forallb (fun p => survives p x) codes) xs).
Proof.
  intros Hcodes. revert xs.
  induction Hcodes as [|p codes Hp _ IH]; intros xs Hxs; cbn [foldl forallb].
  - f_equal. clear. induction xs as [|x xs IHxs]; cbn; [done|]. by rewrite <- IHxs.
  - rewrite re_sub_pieces by done. rewrite IH by by apply filter_tidy.
    f_equal. clear. induction xs as [|x xs IHxs]; cbn; [done|].
    destruct (survives p x); cbn; [|done].
    destruct (forallb _ codes); by rewrite IHxs.
Qed.

Lemma in_catalog_esc_seq w : in_catalog w = true → esc_seq w.
Proof.
  unfold in_catalog. rewrite existsb_exists. intros (p & Hin & Hfull).
  apply fullmatch_lang in Hfull.
  eapply code_shaped_sound; [|done].
  pose proof code_set_shaped as Hall. rewrite Forall_forall in Hall.
  apply Hall. by apply list_elem_of_In.
Qed.




(** *** Inputs built from the catalog *)







(** The occurrences of a pattern in a text. *)
Definition occurs (p : regex) (t : text) : bool :=
  match re_search p t with Some _ => true | None => false end.

(** No pattern of the function matches anywhere in [t]. *)
Definition free_of_codes (t : text) : bool :=
  forallb (fun p => negb (occurs p t)) all_codes.


(** *** Text without control sequences *)

Definition CR : ascii := "013"%char.

(** Modelled from the spec: the newline normalisation of the sanitizer
    ("normalize all line terminators to a single newline convention"),
    whose code is not among the modelled sources.  A carriage return
    followed by a line feed, and a carriage return alone, become one line
    feed. *)
Fixpoint normalize_newlines (t : text) : text :=
  match t with
  | [] => []
  | c :: t' =>
      if bool_decide (c = CR) then
        match t' with
        | l :: t'' =>
            if bool_decide (l = "010"%char) then "010"%char :: normalize_newlines t''
            else "010"%char :: normalize_newlines t'
        | [] => ["010"%char]
        end
      else c :: normalize_newlines t'
  end.

Lemma strip_loop_free codes t :
  Forall (fun p => occurs p t = false) codes →
  foldl (fun output p => re_sub p [] output) t codes = t.
Proof.
  induction 1 as [|p codes Hp _ IH]; cbn [foldl]; [done|].
  rewrite re_sub_no_match; [done|].
  unfold occurs in Hp. by destruct (re_search p t).
Qed.

(** C9, as the code has it.  A text in which no pattern of the function
    matches comes back as it is; its line terminators are not touched, so
    normalising them afterwards gives what normalising the text gives. *)
Theorem strip_ansi_escape_codes_clean (t return_str : text) :
  free_of_codes t = true →
  strip_ansi_escape_codes t return_str = t
  ∧ normalize_newlines (strip_ansi_escape_codes t return_str) = normalize_newlines t.
Proof.
  intros Hfree.
  assert (Hsame : strip_ansi_escape_codes t return_str = t); [|by rewrite Hsame].
  unfold free_of_codes in Hfree. rewrite forallb_forall in Hfree.
  assert (Hno : ∀ p, p ∈ all_codes → re_search p t = None).
  { intros p Hp%list_elem_of_In. specialize (Hfree p Hp).
    unfold occurs in Hfree. by destruct (re_search p t). }
  unfold strip_ansi_escape_codes. cbn zeta.
  rewrite strip_loop_free.
  - rewrite (re_sub_no_match code_next_line).
    + rewrite (Hno code_insert_line); [done|].
      apply elem_of_app. right. apply list_elem_of_further, list_elem_of_here.
    + apply Hno, elem_of_app. right. apply list_elem_of_here.
  - apply Forall_forall. intros p Hp.
    unfold occurs. rewrite Hno; [done|]. apply elem_of_app. by left.
Qed.

(** Two lines of device output, terminated the way devices do. *)
Definition two_lines : text := txt "up" ++ [CR; "010"%char] ++ txt "down".

Lemma strip_ansi_escape_codes_clean_two_lines :
  strip_ansi_escape_codes two_lines LF = two_lines
  ∧ normalize_newlines (strip_ansi_escape_codes two_lines LF) = normalize_newlines two_lines.
Proof.
  apply (strip_ansi_escape_codes_clean two_lines LF). vm_compute. reflexivity.
Defined.

(** The claim as it stands fails: the function does not normalise line
    terminators. *)
Lemma strip_ansi_escape_codes_keeps_CR :
  free_of_codes two_lines = true
  ∧ strip_ansi_escape_codes two_lines LF = txt "up" ++ [CR; "010"%char] ++ txt "down"
  ∧ normalize_newlines two_lines = txt "up" ++ ["010"%char] ++ txt "down"
  ∧ strip_ansi_escape_codes two_lines LF ≠ normalize_newlines two_lines.
Proof.
  split; [|split; [|split]]; vm_compute; [reflexivity..|discriminate].
Qed.

(** *** The insert-line sequence *)

(** Insert one line, a character, insert three lines. *)
Definition two_inserts : text := ESC :: txt "[1Lx" ++ ESC :: txt "[3L".

(** C4.  With two insert-line sequences of different counts, both are
    replaced by as many line feeds as the first one asks for: the second,
    which carries 3, becomes one line feed. *)
Theorem strip_ansi_escape_codes_insert_line_first_count :
  strip_ansi_escape_codes two_inserts LF = times 1 LF ++ txt "x" ++ times 1 LF
  ∧ strip_ansi_escape_codes two_inserts LF ≠ times 1 LF ++ txt "x" ++ times 3 LF.
Proof. split; vm_compute; [reflexivity|discriminate]. Qed.

(** With one sequence, or equal counts, every sequence gets its count. *)
Example strip_ansi_escape_codes_insert_line_same_count :
  strip_ansi_escape_codes (ESC :: txt "[2Lx") LF = times 2 LF ++ txt "x"
  ∧ strip_ansi_escape_codes (ESC :: txt "[12L") LF = times 12 LF
  ∧ strip_ansi_escape_codes (ESC :: txt "[2Lx" ++ ESC :: txt "[2L") LF
    = times 2 LF ++ txt "x" ++ times 2 LF.
Proof. repeat split. Qed.

End AnsiFacts.

(** * Further properties of the modelled code *)

(** ** The expansion loop of SHOW_RUN_MAPPER, for any base dictionary *)

Module ExpandFacts.
Import ShowRun ShowRunFacts.

Lemma string_length_app (a b : string) :
  String.length (a +:+ b) = (String.length a + String.length b)%nat.
Proof.
  induction a as [|x a IH]; [reflexivity|].
  change (S (String.length (a +:+ b)) = S (String.length a + String.length b)).
  by rewrite IH.
Qed.

(** Appending the same suffix to different strings gives different strings. *)
Lemma string_app_inj_r (a b t : string) : a +:+ t = b +:+ t → a = b.
Proof.
  revert b. induction a as [|x a IH]; intros [|y b] Heq.
  - done.
  - apply (f_equal String.length) in Heq.
    rewrite !string_length_app in Heq. cbn in Heq. lia.
  - apply (f_equal String.length) in Heq.
    rewrite !string_length_app in Heq. cbn in Heq. lia.
  - change (String x (a +:+ t) = String y (b +:+ t)) in Heq.
    injection Heq as -> Heq. f_equal. by apply IH.
Qed.

Lemma expand_snoc (d : gmap string string) items kv :
  foldl expand_step d (items ++ [kv]) = expand_step (foldl expand_step d items) kv.
Proof. by rewrite foldl_app. Qed.

(** The loop invents nothing: whatever the base dictionary holds, every
    entry of the expanded dictionary is a base entry, under its own key or
    under its key followed by [_ssh]. *)
Theorem expand_entries_from_base (items : list (string * string)) (j v : string) :
  expand items !! j = Some v →
  ∃ k, (k, v) ∈ items ∧ (j = k ∨ j = k +:+ "_ssh").
Proof.
  unfold expand. induction items as [|kv items IH] using rev_ind.
  - cbn. by rewrite lookup_empty.
  - rewrite expand_snoc, expand_step_lookup. destruct kv as [k w]. cbn [fst snd].
    repeat case_decide.
    + intros [= ->]. exists k. split; [|by right]. apply elem_of_app. right. constructor.
    + intros [= ->]. exists k. split; [|by left]. apply elem_of_app. right. constructor.
    + intros (k' & Hin & Hj)%IH. exists k'. split; [|done]. apply elem_of_app. by left.
Qed.

Lemma expand_entries_from_base_huawei :
  ∃ k, (k, "display current-configuration")
         ∈ [("huawei", "display current-configuration");
            ("fortinet", "show full-configuration")]
       ∧ ("huawei_ssh" = k ∨ "huawei_ssh" = k +:+ "_ssh").
Proof.
  exact (expand_entries_from_base
           [("huawei", "display current-configuration");
            ("fortinet", "show full-configuration")]
           "huawei_ssh" "display current-configuration" eq_refl).
Defined.

(** When the keys of the base dictionary are distinct (they are the keys
    of a [dict]) and none of them is another one followed by [_ssh], every
    base entry is in the expanded dictionary under both keys. *)
Theorem expand_keeps_base (items : list (string * string)) (k v : string) :
  NoDup (items.*1) →
  (∀ k1 k2, k1 ∈ items.*1 → k2 ∈ items.*1 → k2 ≠ k1 +:+ "_ssh") →
  (k, v) ∈ items →
  expand items !! k = Some v ∧ expand items !! (k +:+ "_ssh") = Some v.
Proof.
  unfold expand. induction items as [|[k2 v2] items IH] using rev_ind; intros Hnd Hssh Hin.
  - by apply elem_of_nil in Hin.
  - rewrite fmap_app in Hnd, Hssh. cbn in Hnd, Hssh.
    apply NoDup_app in Hnd as (Hnd & Hfresh & _).
    rewrite expand_snoc, !expand_step_lookup. cbn [fst snd].
    apply elem_of_app in Hin as [Hin|Hin].
    + assert (Hk : k ∈ items.*1) by (apply list_elem_of_fmap; by exists (k, v)).
      assert (Hne : k2 ≠ k).
      { intros ->. apply (Hfresh k Hk). constructor. }
      destruct IH as [IH1 IH2]; [done| |done|].
      { intros k1 k3 H1 H3. apply Hssh; apply elem_of_app; by left. }
      split.
      * rewrite decide_False, decide_False; [done|done|].
        intros Heq. eapply (Hssh k2 k); [..|by rewrite Heq];
          apply elem_of_app; [right; constructor|by left].
      * rewrite decide_False, decide_False; [done| |].
        -- intros Heq. eapply (Hssh k k2); [..|done];
             apply elem_of_app; [by left|right; constructor].
        -- intros Heq%string_app_inj_r. done.
    + apply list_elem_of_singleton in Hin as [= -> ->].
      split.
      * rewrite decide_False, decide_True; [done..|].
        intros Heq. eapply (Hssh k2 k2); [..|by rewrite Heq];
          apply elem_of_app; right; constructor.
      * by rewrite decide_True.
Qed.

(** Two vendors, one show-run command each. *)
Lemma expand_keeps_base_two_vendors :
  expand [("huawei", "display current-configuration"); ("fortinet", "show full-configuration")]
    !! "fortinet" = Some "show full-configuration"
  ∧ expand [("huawei", "display current-configuration"); ("fortinet", "show full-configuration")]
    !! ("fortinet" +:+ "_ssh") = Some "show full-configuration".
Proof.
  apply (expand_keeps_base
           [("huawei", "display current-configuration");
            ("fortinet", "show full-configuration")]).
  - by_evaluation.
  - intros k1 k2 H1 H2.
    apply list_elem_of_In in H1, H2. cbn in H1, H2.
    destruct H1 as [<-|[<-|[]]], H2 as [<-|[<-|[]]]; discriminate.
  - apply list_elem_of_further, list_elem_of_here.
Defined.

(** Without the second condition a base entry can be lost: a base key
    that is another base key followed by [_ssh] is overwritten or
    overwrites, according to the order of the dictionary. *)
Lemma expand_overwrites :
  expand [("a_ssh", "one"); ("a", "two")] !! "a_ssh" = Some "two".
Proof. vm_compute. reflexivity. Qed.

End ExpandFacts.

(** ** select_cmd_verify, applied twice *)

Module CmdVerifyMore.
Import CmdVerify.

(** Decorating a decorated function changes nothing: the second wrapper
    writes the same global value over the keyword the first one wrote. *)
Theorem select_cmd_verify_idempotent {Self R : Type} (global_cmd_verify : Self → pyval)
    (func : @callable Self R) (self : Self) (args : list pyval)
    (kwargs : gmap string pyval) :
  select_cmd_verify global_cmd_verify (select_cmd_verify global_cmd_verify func)
    self args kwargs
  = select_cmd_verify global_cmd_verify func self args kwargs.
Proof.
  unfold select_cmd_verify.
  destruct (is_None (global_cmd_verify self)); [done|].
  by rewrite insert_insert_eq.
Qed.

End CmdVerifyMore.

(** ** Mellanox MLNX-OS: exit_config_mode on any connection *)

Module MellanoxMore.
Import Conn MellanoxMlnxosSSH MellanoxFacts Sim.

Section AnyConnection.
Context {St : Type} `{Connection St}.
Implicit Types (s : St) (output : string).

(** When [exit_config_mode] returns, the check it made last found the
    session out of configuration mode. *)
Theorem exit_config_mode_returns_after_false_check
    (exit_config pattern : string) (fuel : nat) s output s' :
  exit_config_mode exit_config pattern fuel s = Some (Return output, s') →
  ∃ s1, check_config_mode_default s1 = (Return false, s').
Proof.
  unfold exit_config_mode. cbn zeta.
  destruct (while_loop exit_config pattern fuel 12 "" s) as [[[[out c]|e] s1]|]; [|done..].
  unfold bind.
  destruct (check_config_mode_default s1) as [[[|]|e] s2] eqn:Hcheck; cbn; [done| |done].
  intros [= <- <-]. by exists s1.
Qed.

(** On a session that is not in configuration mode the call only checks,
    twice, and returns the empty string. *)
Theorem exit_config_mode_not_in_config
    (exit_config pattern : string) (fuel : nat) s s1 s2 :
  check_config_mode_default s = (Return false, s1) →
  check_config_mode_default s1 = (Return false, s2) →
  exit_config_mode exit_config pattern (S fuel) s = Some (Return "", s2).
Proof.
  intros Hfirst Hlast. unfold exit_config_mode. cbn zeta. cbn [while_loop].
  change (12 >=? 0)%Z with true. cbv iota. rewrite Hfirst.
  unfold bind. by rewrite Hlast.
Qed.
End AnyConnection.

(** [exit_config_mode] on the simulated device, out of configuration mode
    and at the enable prompt. *)
Lemma exit_config_mode_not_in_config_device :
  exit_config_mode "exit" "#" 14 (Sim.nested 0) = Some (Return "", Sim.nested 0).
Proof.
  exact (exit_config_mode_not_in_config "exit" "#" 13
           (Sim.nested 0) (Sim.nested 0) (Sim.nested 0) eq_refl eq_refl).
Defined.

Lemma exit_config_mode_returns_after_false_check_device :
  ∃ d, check_config_mode_default d = (Return false, Sim.nested 0).
Proof.
  exact (exit_config_mode_returns_after_false_check "exit" "#" 14
           (Sim.nested 0) "" (Sim.nested 0) eq_refl).
Defined.

(** *** Counting the writes *)

(** A connection with a counter of the calls to [write_channel]. *)
Definition lift {St A} (m : M St A) : M (St * nat) A :=
  fun sn => let '(r, s') := m sn.1 in (r, (s', sn.2)).

Definition tick {St A} (m : M St A) : M (St * nat) A :=
  fun sn => let '(r, s') := m sn.1 in (r, (s', S sn.2)).

#[export] Instance counted_connection {St : Type} `{Connection St}
  : Connection (St * nat) := {|
  write_channel line := tick (write_channel line);
  normalize_cmd cmd := lift (normalize_cmd cmd);
  read_until_pattern pattern := lift (read_until_pattern pattern);
  read_until_prompt_or_pattern pattern re_flags :=
    lift (read_until_prompt_or_pattern pattern re_flags);
  inherited_check_enable_mode := lift inherited_check_enable_mode;
  super_check_config_mode check_string pattern :=
    lift (super_check_config_mode check_string pattern);
|}.

(** A result with the counter taken off the connection. *)
Definition uncounted {St A} (r : option (result A * (St * nat))) : option (result A * St) :=
  match r with
  | Some (a, (s, _)) => Some (a, s)
  | None => None
  end.

Section Counting.
Context {St : Type} `{Connection St}.
Implicit Types (s : St) (n : nat) (output : string).

(** The counter does not change what the loop does, and the loop adds at
    most [check_count + 1] writes. *)
Lemma while_loop_counted exit_config pattern fuel (check_count : Z) output s n :
  (-1 ≤ check_count)%Z →
  uncounted (while_loop exit_config pattern fuel check_count output (s, n))
    = while_loop exit_config pattern fuel check_count output s
  ∧ ∀ r s' n',
      while_loop exit_config pattern fuel check_count output (s, n) = Some (r, (s', n')) →
      (n ≤ n' ≤ n + Z.to_nat (check_count + 1))%nat.
Proof.
  revert check_count output s n.
  induction fuel as [|fuel IH]; intros check_count output s n Hc; [done|].
  cbn [while_loop].
  destruct (check_count >=? 0)%Z eqn:Hge.
  2:{ split; [done|]. intros r s' n' [= <- <- <-]. lia. }
  apply Z.geb_le in Hge.
  unfold check_config_mode_default, check_config_mode, bind.
  cbn [super_check_config_mode normalize_cmd write_channel read_until_pattern
       counted_connection].
  unfold lift, tick. cbn [fst snd].
  destruct (super_check_config_mode "(config" "#" s) as [[[|]|e] s1]; cbn [fst snd].
  2,3: split; [done|]; intros r s' n' [= <- <- <-]; lia.
  destruct (normalize_cmd exit_config s1) as [[line|e] s2]; cbn [fst snd].
  2: split; [done|]; intros r s' n' [= <- <- <-]; lia.
  destruct (write_channel line s2) as [[[]|e] s3]; cbn [fst snd].
  2: split; [done|]; intros r s' n' [= <- <- <-]; lia.
  destruct (read_until_pattern pattern s3) as [[data|e] s4]; cbn [fst snd].
  2: split; [done|]; intros r s' n' [= <- <- <-]; lia.
  destruct (IH (check_count - 1)%Z (output +:+ data) s4 (S n)) as [Hsame Hcount]; [lia|].
  split; [done|].
  intros r s' n' Hrun. apply Hcount in Hrun. lia.
Qed.

(** Whatever the device answers, [exit_config_mode] writes to the channel
    at most thirteen times, and counting its writes does not change what
    it does. *)
Theorem exit_config_mode_at_most_13_writes
    (exit_config pattern : string) (fuel : nat) s n :
  uncounted (exit_config_mode exit_config pattern fuel (s, n))
    = exit_config_mode exit_config pattern fuel s
  ∧ ∀ r s' n',
      exit_config_mode exit_config pattern fuel (s, n) = Some (r, (s', n')) →
      (n ≤ n' ≤ n + 13)%nat.
Proof.
  unfold exit_config_mode. cbn zeta.
  destruct (while_loop_counted exit_config pattern fuel 12 "" s n) as [Hsame Hcount]; [lia|].
  rewrite <- Hsame.
  destruct (while_loop exit_config pattern fuel 12 "" (s, n))
    as [[[[out c]|e] [s1 n1]]|]; cbn [uncounted].
  - specialize (Hcount _ _ _ eq_refl). change (Z.to_nat (12 + 1)) with 13%nat in Hcount.
    unfold bind, check_config_mode_default, check_config_mode.
    cbn [super_check_config_mode counted_connection]. unfold lift. cbn [fst snd].
    destruct (super_check_config_mode "(config" "#" s1) as [[[|]|e] s2]; cbn;
      (split; [done|]; intros r s' n' [= <- <- <-]; lia).
  - specialize (Hcount _ _ _ eq_refl). change (Z.to_nat (12 + 1)) with 13%nat in Hcount.
    split; [done|]. intros r s' n' [= <- <- <-]. lia.
  - done.
Qed.
End Counting.

(** The simulated device twenty contexts deep: thirteen writes, then the
    error. *)
Lemma exit_config_mode_counted_device :
  exit_config_mode "exit" "#" 14 (Sim.nested 20, 0%nat)
  = Some (Raise (ValueError "Failed to exit configuration mode"),
          (after_exits 13 (Sim.nested 20), 13%nat)).
Proof. vm_compute. reflexivity. Qed.

Lemma exit_config_mode_at_most_13_writes_device :
  uncounted (exit_config_mode "exit" "#" 14 (Sim.nested 20, 0%nat))
    = exit_config_mode "exit" "#" 14 (Sim.nested 20)
  ∧ (0 ≤ 13 ≤ 0 + 13)%nat.
Proof.
  split.
  - exact (proj1 (exit_config_mode_at_most_13_writes "exit" "#" 14 (Sim.nested 20) 0)).
  - exact (proj2 (exit_config_mode_at_most_13_writes "exit" "#" 14 (Sim.nested 20) 0)
             _ _ _ exit_config_mode_counted_device).
Defined.

(** [exit_config_mode] comes back for every connection: a large bound on
    the turns of the loop gives what fourteen turns give. *)
Lemma exit_config_mode_fuel_device :
  exit_config_mode "exit" "#" 100 (Sim.nested 3) = exit_config_mode "exit" "#" 14 (Sim.nested 3)
  ∧ is_Some (exit_config_mode "exit" "#" 100 (Sim.nested 3)).
Proof.
  apply (exit_config_mode_fuel "exit" "#" 100 (Sim.nested 3)). lia.
Defined.

End MellanoxMore.

(** ** get_template_dir, get_structured_data, clitable_to_dict *)

Module StructuredDataMore.
Import StructuredData.

(** The same environment with another [ntc_templates] package. *)
Definition with_ntc_templates (env : Env) (package : result string) : Env := {|
  NET_TEXTFSM := NET_TEXTFSM env;
  expanduser := expanduser env;
  isfile := isfile env;
  isdir := isdir env;
  abspath := abspath env;
  ntc_templates := package;
  path_name := path_name env;
  path_parents_0 := path_parents_0 env;
  CliTable_init := CliTable_init env;
  ParseCmd := ParseCmd env;
  TTP_INSTALLED := TTP_INSTALLED env;
  ttp_result := ttp_result env;
|}.

(** A directory [get_template_dir] returns has been checked: it is the
    absolute path of a directory that exists and holds a file [index]. *)
Theorem get_template_dir_checked (env : Env) (skip : bool) (dir : string) :
  get_template_dir env skip = Return dir →
  ∃ template_dir,
    dir = abspath env template_dir
    ∧ isdir env template_dir = true
    ∧ isfile env (path_join template_dir "index") = true.
Proof.
  unfold get_template_dir.
  set (found := match NET_TEXTFSM env with Some _ => _ | None => _ end).
  destruct found as [template_dir|e]; cbn; [|done].
  destruct (isdir env template_dir) eqn:Hdir; cbn; [|done].
  destruct (isfile env (path_join template_dir "index")) eqn:Hfile; cbn; [|done].
  intros [= <-]. by exists template_dir.
Qed.

(** With [NET_TEXTFSM] set, the [ntc_templates] package and the home
    directory are not looked at: whatever the package is, installed or
    not, and whatever [_skip_ntc_package] says, the outcome is the same. *)
Theorem get_template_dir_NET_TEXTFSM_first (env : Env) (package : result string)
    (skip skip' : bool) (value : string) :
  NET_TEXTFSM env = Some value →
  get_template_dir (with_ntc_templates env package) skip' = get_template_dir env skip.
Proof. intros Hset. unfold get_template_dir. cbn. by rewrite Hset. Qed.

(** An environment where [NET_TEXTFSM] names a checkout of the templates
    repository: the index is one level down, in [templates]. *)
Definition checkout_env : Env := {|
  NET_TEXTFSM := Some "/opt/ntc";
  expanduser p := p;
  isfile p := bool_decide (p = "/opt/ntc/templates/index");
  isdir p := bool_decide (p = "/opt/ntc/templates");
  abspath p := p;
  ntc_templates := Return "/site-packages/ntc_templates/templates";
  path_name p := p;
  path_parents_0 _ := Return ".";
  CliTable_init _ _ := Return ();
  ParseCmd _ _ _ _ _ := Raise CliTableError;
  TTP_INSTALLED := false;
  ttp_result _ _ := Raise (OtherException "TemplateError");
|}.

Lemma get_template_dir_checkout :
  get_template_dir checkout_env false = Return "/opt/ntc/templates".
Proof. vm_compute. reflexivity. Qed.

Lemma get_template_dir_checked_checkout :
  ∃ template_dir,
    "/opt/ntc/templates" = abspath checkout_env template_dir
    ∧ isdir checkout_env template_dir = true
    ∧ isfile checkout_env (path_join template_dir "index") = true.
Proof.
  exact (get_template_dir_checked checkout_env false "/opt/ntc/templates"
           get_template_dir_checkout).
Defined.

Lemma get_template_dir_NET_TEXTFSM_first_checkout :
  get_template_dir (with_ntc_templates checkout_env (Raise ModuleNotFoundError)) true
  = get_template_dir checkout_env false.
Proof.
  exact (get_template_dir_NET_TEXTFSM_first checkout_env (Raise ModuleNotFoundError)
           false true "/opt/ntc" eq_refl).
Defined.

(** With a template given, [get_structured_data] does not use the platform
    or the command. *)
Theorem get_structured_data_template_alone (env : Env) (raw_output template : string)
    (platform command : option string) :
  get_structured_data env raw_output platform command (Some template)
  = get_structured_data env raw_output None None (Some template).
Proof. destruct platform, command; reflexivity. Qed.

(** *** clitable_to_dict *)

Lemma row_to_dict_fits hdr index row (temp_dict : gmap string pyval) :
  (index + length row ≤ length hdr)%nat →
  ∃ d, row_to_dict hdr index row temp_dict = Return d.
Proof.
  revert index temp_dict. induction row as [|element row IH]; intros index temp_dict Hlen.
  - by eexists.
  - cbn in *. destruct (lookup_lt_is_Some_2 hdr index) as [name ->]; [lia|].
    apply IH. lia.
Qed.

Lemma row_to_dict_long hdr index row (temp_dict : gmap string pyval) :
  (index ≤ length hdr)%nat →
  (length hdr < index + length row)%nat →
  row_to_dict hdr index row temp_dict = Raise IndexError.
Proof.
  revert index temp_dict.
  induction row as [|element row IH]; intros index temp_dict Hindex Hlen.
  - cbn in Hlen. lia.
  - cbn in *. destruct (hdr !! index) as [name|] eqn:Hname; [|done].
    apply lookup_lt_Some in Hname. apply IH; lia.
Qed.

(** When no row has more cells than the header has columns, the table
    becomes one dictionary per row, in the order of the rows. *)
Theorem clitable_to_dict_one_per_row (cli_table : CliTable) :
  Forall (fun row => length row ≤ length (header cli_table))%nat (table_rows cli_table) →
  ∃ objs, clitable_to_dict cli_table = Return objs
          ∧ length objs = length (table_rows cli_table).
Proof.
  unfold clitable_to_dict. generalize (header cli_table) as hdr.
  intros hdr. induction 1 as [|row rows Hrow _ IH].
  - by exists [].
  - cbn. destruct (row_to_dict_fits hdr 0 row ∅) as [d ->]; [cbn; lia|].
    destruct IH as (objs & -> & Hlen). cbn. exists (d :: objs). cbn. by rewrite Hlen.
Qed.

(** A row with more cells than the header has columns makes the
    conversion raise [IndexError], whatever rows come before or after. *)
Theorem clitable_to_dict_long_row (cli_table : CliTable) :
  Exists (fun row => length (header cli_table) < length row)%nat (table_rows cli_table) →
  clitable_to_dict cli_table = Raise IndexError.
Proof.
  unfold clitable_to_dict. generalize (header cli_table) as hdr.
  intros hdr. induction (table_rows cli_table) as [|row rows IH]; intros Hex.
  - by apply Exists_nil in Hex.
  - cbn. destruct (decide (length hdr < length row)%nat) as [Hlong|Hfits].
    + rewrite row_to_dict_long; [done|lia|cbn; lia].
    + destruct (row_to_dict_fits hdr 0 row ∅) as [d ->]; [cbn; lia|]. cbn.
      apply Exists_cons in Hex as [Hex|Hex]; [done|]. by rewrite IH.
Qed.

(** The cells a row leaves in its dictionary, columns [index] onwards. *)
Lemma row_to_dict_lookup hdr index row (temp_dict d : gmap string pyval) j name :
  NoDup (lower <$> hdr) →
  row_to_dict hdr index row temp_dict = Return d →
  hdr !! j = Some name →
  d !! lower name
  = if decide (index ≤ j < index + length row)%nat then row !! (j - index)%nat
    else temp_dict !! lower name.
Proof.
  intros Hnd. revert index temp_dict.
  induction row as [|element row IH]; intros index temp_dict Hrun Hj.
  - cbn in Hrun. injection Hrun as <-. rewrite decide_False; [done|cbn; lia].
  - cbn in Hrun. destruct (hdr !! index) as [name'|] eqn:Hname'; [|done].
    rewrite (IH _ _ Hrun Hj). cbn [length].
    destruct (decide (j = index)) as [->|Hne].
    + rewrite decide_False by lia. rewrite decide_True by lia.
      rewrite Nat.sub_diag. cbn.
      assert (name' = name) as -> by congruence. by rewrite lookup_insert_eq.
    + assert (Hkeys : lower name' ≠ lower name).
      { intros Heq. apply Hne.
        eapply (NoDup_lookup (lower <$> hdr)); [done|..];
          rewrite list_lookup_fmap; [by rewrite Hj|].
        rewrite Hname'. cbn. by rewrite Heq. }
      rewrite lookup_insert_ne by done.
      destruct (decide (S index ≤ j < S index + length row)%nat) as [Hin|Hout].
      * rewrite decide_True by lia.
        replace (j - index)%nat with (S (j - S index)) by lia. done.
      * by rewrite decide_False by lia.
Qed.

(** When the lower-cased column names are distinct, the dictionary of a
    row maps each lower-cased column name to the cell of that column. *)
Theorem clitable_to_dict_cells (cli_table : CliTable) objs i row d j name :
  NoDup (lower <$> header cli_table) →
  clitable_to_dict cli_table = Return objs →
  table_rows cli_table !! i = Some row →
  objs !! i = Some d →
  header cli_table !! j = Some name →
  d !! lower name = row !! j.
Proof.
  unfold clitable_to_dict. intros Hnd.
  generalize (table_rows cli_table) as rows. intros rows. revert objs i.
  induction rows as [|row' rows IH]; intros objs i Hrun Hrow Hd Hj; [done|].
  cbn in Hrun.
  destruct (row_to_dict (header cli_table) 0 row' ∅) as [d'|] eqn:Hrow'; [|done].
  cbn in Hrun.
  destruct (rows_to_dicts (header cli_table) rows) as [objs'|] eqn:Hrows; [|done].
  cbn in Hrun. injection Hrun as <-.
  destruct i as [|i]; cbn in Hrow, Hd.
  - injection Hrow as ->. injection Hd as ->.
    rewrite (row_to_dict_lookup _ _ _ _ _ _ _ Hnd Hrow' Hj).
    rewrite Nat.sub_0_r. case_decide as Hin; [done|].
    rewrite lookup_empty. symmetry. apply lookup_ge_None. lia.
  - by eapply IH.
Qed.

(** Two interfaces, as [show ip interface brief] would give them. *)
Definition interfaces : CliTable := {|
  header := ["INTF"; "IPADDR"; "STATUS"];
  table_rows := [ [PStr "Gi0/1"; PStr "10.0.0.1"; PStr "up"];
                  [PStr "Gi0/2"; PStr "unassigned"; PStr "down"] ];
|}.

Lemma clitable_to_dict_one_per_row_interfaces :
  ∃ objs, clitable_to_dict interfaces = Return objs ∧ length objs = 2%nat.
Proof.
  apply (clitable_to_dict_one_per_row interfaces).
  repeat constructor.
Defined.

Lemma clitable_to_dict_long_row_example :
  clitable_to_dict {| header := ["INTF"]; table_rows := [[PStr "Gi0/1"]; [PStr "Gi0/2"; PStr "up"]] |}
  = Raise IndexError.
Proof.
  apply (clitable_to_dict_long_row
           {| header := ["INTF"];
              table_rows := [[PStr "Gi0/1"]; [PStr "Gi0/2"; PStr "up"]] |}).
  apply Exists_cons_tl, Exists_cons_hd. cbn. lia.
Defined.

Lemma clitable_to_dict_cells_interfaces :
  <["status" := PStr "down"]> (<["ipaddr" := PStr "unassigned"]>
     (<["intf" := PStr "Gi0/2"]> (∅ : gmap string pyval))) !! lower "IPADDR"
  = [PStr "Gi0/2"; PStr "unassigned"; PStr "down"] !! 1%nat.
Proof.
  apply (clitable_to_dict_cells interfaces
           [ <["status" := PStr "up"]> (<["ipaddr" := PStr "10.0.0.1"]>
               (<["intf" := PStr "Gi0/1"]> ∅));
             <["status" := PStr "down"]> (<["ipaddr" := PStr "unassigned"]>
               (<["intf" := PStr "Gi0/2"]> ∅)) ]
           1%nat _ _ 1%nat "IPADDR").
  - by_evaluation.
  - reflexivity.
  - reflexivity.
  - reflexivity.
  - reflexivity.
Defined.

End StructuredDataMore.

(** ** utilities.py: obtain_all_devices, write_bytes, get_structured_data_genie *)

Module Utilities.
Import StructuredData.

(** [isinstance(v, list)] *)
Definition is_list (v : pyval) : bool :=
  match v with PList _ => true | _ => false end.

(** Lines 166-173.  The inventory maps a name to a device (a dictionary)
    or to a group (a list of names); the result is a dictionary, so the
    order in which the loop meets the entries does not show. *)
Definition obtain_all_devices (my_devices : gmap string pyval) : gmap string pyval :=
  map_fold (fun device_name device_or_group new_devices =>
              if negb (is_list device_or_group)
              then <[device_name := device_or_group]> new_devices
              else new_devices)
           ∅ my_devices.

(** The argument of [write_bytes]: a [str], a [bytes], or something else. *)
Inductive out_data :=
| OutStr (s : list ascii)
| OutBytes (b : list Byte.byte)
| OutOther (v : pyval).

Definition is_ascii (c : ascii) : bool := (nat_of_ascii c <? 128)%nat.

(** [s.encode("utf-8")] on code points below 256: one byte below 128, two
    bytes from 128 on. *)
Definition encode_utf8 (s : list ascii) : list Byte.byte :=
  s ≫= (fun c =>
          let n := nat_of_ascii c in
          if is_ascii c then [byte_of_ascii c]
          else [byte_of_ascii (ascii_of_nat (192 + n / 64));
                byte_of_ascii (ascii_of_nat (128 + n mod 64))]).

(** [s.encode("ascii", "ignore")]: the characters that are not ASCII are
    left out. *)
Definition encode_ascii_ignore (s : list ascii) : list Byte.byte :=
  byte_of_ascii <$> List.filter is_ascii s.

(** Lines 214-224.  The module uses f-strings, so the test of line 215
    ([sys.version_info[0] >= 3]) holds wherever the function is defined. *)
Definition write_bytes (data : out_data) (encoding : string) : result (list Byte.byte) :=
  match data with
  | OutStr s =>
      if bool_decide (encoding = "utf-8") then Return (encode_utf8 s)
      else Return (encode_ascii_ignore s)
  | OutBytes b => Return b
  | OutOther _ =>
      Raise (ValueError "Invalid value for out_data neither unicode nor byte string")
  end.

(** *** str methods *)

(** [s.startswith(p)] *)
Fixpoint starts_with (p s : string) : bool :=
  match p, s with
  | EmptyString, _ => true
  | String a p, String b s => bool_decide (a = b) && starts_with p s
  | String _ _, EmptyString => false
  end.

(** [needle in s] *)
Fixpoint contains (needle s : string) : bool :=
  starts_with needle s
  || match s with
     | EmptyString => false
     | String _ s => contains needle s
     end.

(** [s.count(c)] for a separator of one character. *)
Fixpoint count_char (c : ascii) (s : string) : nat :=
  match s with
  | EmptyString => 0
  | String x s => (if bool_decide (x = c) then 1 else 0) + count_char c s
  end.

(** [s.split(c)] for a separator of one character. *)
Fixpoint split_on (c : ascii) (s : string) : list string :=
  match s with
  | EmptyString => [EmptyString]
  | String x s =>
      match split_on c s with
      | [] => []
      | w :: ws => if bool_decide (x = c) then EmptyString :: w :: ws else String x w :: ws
      end
  end.

(** [sep.join(l)] *)
Fixpoint join (sep : string) (l : list string) : string :=
  match l with
  | [] => EmptyString
  | w :: ws =>
      match ws with
      | [] => w
      | _ => w +:+ sep +:+ join sep ws
      end
  end.

(** *** get_structured_data_genie *)

(** What the function takes from the interpreter and from Genie and PyATS. *)
Record GenieEnv := {
  (** [sys.version_info >= (3, 4)] *)
  version_3_4 : bool;
  (** whether the imports of lines 33-35 succeeded *)
  GENIE_INSTALLED : bool;
  (** lines 448-451: [Device("new_device", os=os)] and its set-up *)
  Device_init : string → result ();
  (** lines 454-455: [get_parser(command, device)] and
      [device.parse(command, output=raw_output)], for the device's os *)
  genie_parse : string → string → string → result pyval;
}.

(** Lines 426-432. *)
Definition genie_device_mapper : gmap string string :=
  ShowRun.dict_display
    [ ("cisco_ios", "ios"); ("cisco_xe", "iosxe"); ("cisco_xr", "iosxr");
      ("cisco_nxos", "nxos"); ("cisco_asa", "asa") ].

(** Lines 435-440. *)
Definition base_platform_of (platform : string) : string :=
  if (1 <? count_char "_" platform)%nat
  then
    let base_platform_list := removelast (split_on "_" platform) in
    join "_" base_platform_list
  else platform.

(** Lines 417-420: the two adjacent literals of the message. *)
Definition genie_msg : string :=
  (NL +:+ "Genie and PyATS are not installed. Please PIP install both Genie and PyATS:" +:+ NL)
  +:+ ("pip install genie" +:+ NL +:+ "pip install pyats" +:+ NL).

(** Lines 410-459.  Assertions are taken as enabled. *)
Definition get_structured_data_genie (env : GenieEnv)
    (raw_output platform command : string) : result (hook_output pyval) :=
  if negb (version_3_4 env) then Raise (ValueError "Genie requires Python >= 3.4")
  else if negb (GENIE_INSTALLED env) then Raise (ValueError genie_msg)
  else if negb (contains "cisco" platform) then Return (Unchanged raw_output)
  else
    let base_platform := base_platform_of platform in
    match genie_device_mapper !! base_platform with
    | None | Some EmptyString => Return (Unchanged raw_output)
    | Some os =>
        try! device := Device_init env os in
        let body :=
          try! parsed_output := genie_parse env os command raw_output in
          match parsed_output with
          | PDict _ => Return (Structured parsed_output)
          | _ => Raise AssertionError
          end in
        match body with
        | Return out => Return out
        | Raise e => if is_Exception e then Return (Unchanged raw_output) else Raise e
        end
    end.

End Utilities.

(** ** oneaccess/oneaccess_oneos.py *)

Module OneaccessOneOSBase.

(** ["\r\n"] *)
Definition CRLF : string := String "013" (String "010" EmptyString).

(** Lines 10-11: the keyword arguments as [__init__] hands them on. *)
Definition init_kwargs (kwargs : gmap string pyval) : gmap string pyval :=
  let default_enter := default PNone (kwargs !! "default_enter") in
  <["default_enter" := if is_None default_enter then PStr CRLF else default_enter]> kwargs.

(** Lines 8-12: [__init__(self, *args, **kwargs)], with the initialiser of
    the base class as [super_init]. *)
Definition __init__ {R : Type} (super_init : list pyval → gmap string pyval → R)
    (args : list pyval) (kwargs : gmap string pyval) : R :=
  super_init args (init_kwargs kwargs).

End OneaccessOneOSBase.

(** ** Properties of the utilities *)

Module UtilitiesFacts.
Import StructuredData Utilities.

(** *** obtain_all_devices *)

Lemma obtain_all_devices_get (my_devices : gmap string pyval) (name : string) :
  obtain_all_devices my_devices !! name
  = match my_devices !! name with
    | Some device_or_group =>
        if is_list device_or_group then None else Some device_or_group
    | None => None
    end.
Proof.
  unfold obtain_all_devices.
  apply (map_fold_weak_ind (fun r m =>
    r !! name = match m !! name with
                | Some v => if is_list v then None else Some v
                | None => None
                end)).
  - by rewrite !lookup_empty.
  - intros k v m r Hfresh IH.
    destruct (decide (k = name)) as [->|Hne].
    + rewrite lookup_insert_eq. rewrite Hfresh in IH.
      destruct (is_list v); cbn; [done|]. by rewrite lookup_insert_eq.
    + rewrite (lookup_insert_ne m) by done.
      destruct (is_list v); cbn; [done|]. by rewrite lookup_insert_ne.
Qed.

(** The "all" group holds exactly the devices of the inventory: every
    entry that is not a list is in it under its name and unchanged, no
    group is in it, and no other name is. *)
Theorem obtain_all_devices_lookup (my_devices : gmap string pyval) (name : string) :
  (∀ v, my_devices !! name = Some v → is_list v = false →
        obtain_all_devices my_devices !! name = Some v)
  ∧ (∀ v, my_devices !! name = Some v → is_list v = true →
          obtain_all_devices my_devices !! name = None)
  ∧ (my_devices !! name = None → obtain_all_devices my_devices !! name = None).
Proof.
  rewrite obtain_all_devices_get. split_and!.
  - intros v -> Hv. by rewrite Hv.
  - intros v -> Hv. by rewrite Hv.
  - by intros ->.
Qed.

(** An inventory of one router and one group. *)
Definition lab_inventory : gmap string pyval :=
  <["r1" := PDict [("device_type", PStr "cisco_ios")]]>
    (<["core" := PList [PStr "r1"]]> ∅).

Lemma obtain_all_devices_lookup_lab :
  obtain_all_devices lab_inventory !! "r1" = Some (PDict [("device_type", PStr "cisco_ios")])
  ∧ obtain_all_devices lab_inventory !! "core" = None
  ∧ obtain_all_devices lab_inventory !! "r2" = None.
Proof.
  split_and!.
  - exact (proj1 (obtain_all_devices_lookup lab_inventory "r1") _ eq_refl eq_refl).
  - exact (proj1 (proj2 (obtain_all_devices_lookup lab_inventory "core")) _ eq_refl eq_refl).
  - exact (proj2 (proj2 (obtain_all_devices_lookup lab_inventory "r2")) eq_refl).
Defined.

(** Taking the devices of the devices changes nothing. *)
Theorem obtain_all_devices_idempotent (my_devices : gmap string pyval) :
  obtain_all_devices (obtain_all_devices my_devices) = obtain_all_devices my_devices.
Proof.
  apply map_eq. intros name. rewrite !obtain_all_devices_get.
  destruct (my_devices !! name) as [v|]; [|done].
  destruct (is_list v) eqn:Hv; [done|]. by rewrite Hv.
Qed.

(** *** write_bytes *)

Lemma encode_utf8_ascii (s : list ascii) :
  Forall (fun c => is_ascii c = true) s → encode_utf8 s = byte_of_ascii <$> s.
Proof.
  unfold encode_utf8. induction 1 as [|c s Hc _ IH]; [done|].
  rewrite bind_cons, Hc, IH. reflexivity.
Qed.

Lemma encode_ascii_ignore_ascii (s : list ascii) :
  Forall (fun c => is_ascii c = true) s → encode_ascii_ignore s = byte_of_ascii <$> s.
Proof.
  unfold encode_ascii_ignore. induction 1 as [|c s Hc _ IH]; [done|].
  cbn [List.filter]. rewrite Hc, !fmap_cons. f_equal. exact IH.
Qed.

(** For a text of ASCII characters the encoding asked for makes no
    difference: the result is the text, one byte per character. *)
Theorem write_bytes_ascii_text (s : list ascii) (encoding : string) :
  Forall (fun c => is_ascii c = true) s →
  write_bytes (OutStr s) encoding = Return (byte_of_ascii <$> s).
Proof.
  intros Hs. unfold write_bytes. case_bool_decide.
  - by rewrite encode_utf8_ascii.
  - by rewrite encode_ascii_ignore_ascii.
Qed.

Lemma write_bytes_ascii_text_show :
  write_bytes (OutStr (list_ascii_of_string "show version")) "latin-1"
  = Return (byte_of_ascii <$> list_ascii_of_string "show version").
Proof.
  apply (write_bytes_ascii_text (list_ascii_of_string "show version") "latin-1").
  repeat constructor.
Defined.

(** Every encoding other than the exact name [utf-8] is taken as ASCII
    with the characters that do not fit left out: the result is never
    longer than the text and holds 7-bit bytes only. *)
Theorem write_bytes_other_encoding (s : list ascii) (encoding : string) :
  encoding ≠ "utf-8" →
  ∃ b, write_bytes (OutStr s) encoding = Return b
       ∧ (length b ≤ length s)%nat
       ∧ Forall (fun x => is_ascii (ascii_of_byte x) = true) b.
Proof.
  intros Henc. unfold write_bytes. rewrite bool_decide_false by done.
  eexists. split; [done|]. unfold encode_ascii_ignore. split.
  - rewrite length_fmap. induction s as [|c s IH]; [done|].
    cbn [List.filter length]. destruct (is_ascii c); cbn [length]; lia.
  - induction s as [|c s IH]; [constructor|].
    cbn [List.filter]. destruct (is_ascii c) eqn:Hc; [|done].
    rewrite fmap_cons. constructor; [|done].
    by rewrite ascii_of_byte_of_ascii.
Qed.

(** [latin-1] is such an encoding: the e-acute of "caf\'e" is dropped. *)
Lemma write_bytes_other_encoding_latin1 :
  ∃ b, write_bytes (OutStr (list_ascii_of_string "caf" ++ ["233"%char])) "latin-1" = Return b
       ∧ (length b ≤ 4)%nat
       ∧ Forall (fun x => is_ascii (ascii_of_byte x) = true) b.
Proof.
  apply (write_bytes_other_encoding (list_ascii_of_string "caf" ++ ["233"%char]) "latin-1").
  discriminate.
Defined.

(** *** str methods *)

Lemma string_app_cons x (a b : string) : String x a +:+ b = String x (a +:+ b).
Proof. reflexivity. Qed.

Lemma string_app_nil (b : string) : "" +:+ b = b.
Proof. reflexivity. Qed.

Lemma split_on_nonempty c s : split_on c s ≠ [].
Proof.
  induction s as [|x s IH]; cbn; [done|].
  destruct (split_on c s); [done|]. by case_bool_decide.
Qed.

Lemma split_on_no_separator c s : count_char c s = 0%nat → split_on c s = [s].
Proof.
  induction s as [|x s IH]; cbn; [done|].
  case_bool_decide; [done|]. intros Hs. by rewrite IH.
Qed.

(** Splitting at the last separator. *)
Lemma split_on_last c (p suffix : string) :
  count_char c suffix = 0%nat →
  split_on c (p +:+ String c suffix) = split_on c p ++ [suffix].
Proof.
  intros Hs. induction p as [|x p IH].
  - rewrite string_app_nil. cbn. rewrite split_on_no_separator by done.
    by rewrite bool_decide_true.
  - rewrite string_app_cons. cbn. rewrite IH.
    pose proof (split_on_nonempty c p) as Hne.
    destruct (split_on c p) as [|w ws]; [done|]. cbn. by case_bool_decide.
Qed.

(** [sep.join(s.split(sep)) == s] *)
Lemma join_split_on c s : join (String c "") (split_on c s) = s.
Proof.
  induction s as [|x s IH]; [done|].
  cbn [split_on].
  pose proof (split_on_nonempty c s) as Hne.
  destruct (split_on c s) as [|w ws]; [done|].
  case_bool_decide as Hx.
  - subst x. rewrite <- IH. reflexivity.
  - destruct ws as [|w' ws]; rewrite <- IH; reflexivity.
Qed.

Lemma count_char_app c (a b : string) :
  count_char c (a +:+ b) = (count_char c a + count_char c b)%nat.
Proof.
  induction a as [|x a IH]; [done|].
  rewrite string_app_cons. cbn. rewrite IH. lia.
Qed.

Lemma starts_with_app (p a b : string) :
  starts_with p a = true → starts_with p (a +:+ b) = true.
Proof.
  revert a. induction p as [|x p IH]; intros [|y a]; cbn; try done.
  rewrite string_app_cons. cbn.
  intros [-> Hp]%andb_true_iff. cbn. by apply IH.
Qed.

Lemma contains_app (needle a b : string) :
  contains needle a = true → contains needle (a +:+ b) = true.
Proof.
  induction a as [|y a IH].
  - cbn. rewrite orb_false_r. destruct needle; [|done]. intros _.
    rewrite string_app_nil. by destruct b.
  - rewrite string_app_cons. cbn.
    intros [Hp|Ha]%orb_true_iff.
    + apply (starts_with_app _ _ b) in Hp. rewrite string_app_cons in Hp.
      by rewrite Hp.
    + rewrite IH by done. apply orb_true_r.
Qed.

(** *** get_structured_data_genie *)

(** A platform name with one underscore stays as it is. *)
Lemma base_platform_of_plain (platform : string) :
  (count_char "_" platform ≤ 1)%nat → base_platform_of platform = platform.
Proof.
  intros Hc. unfold base_platform_of.
  destruct (1 <? count_char "_" platform)%nat eqn:Hlt; [|done].
  apply Nat.ltb_lt in Hlt. lia.
Qed.

(** The transport suffix is taken off a platform name that holds an
    underscore already. *)
Lemma base_platform_of_suffix (platform suffix : string) :
  (1 ≤ count_char "_" platform)%nat → count_char "_" suffix = 0%nat →
  base_platform_of (platform +:+ String "_" suffix) = platform.
Proof.
  intros Hp Hs. unfold base_platform_of.
  rewrite count_char_app. cbn [count_char]. rewrite bool_decide_true by done.
  destruct (1 <? _)%nat eqn:Hlt; [|apply Nat.ltb_ge in Hlt; lia].
  cbn zeta. rewrite split_on_last by done.
  rewrite removelast_last. apply join_split_on.
Qed.

(** The transport does not matter to Genie: a Cisco platform name with
    one underscore gives the same result with [_ssh], [_telnet] or any
    other suffix without underscore as without. *)
Theorem get_structured_data_genie_transport (env : GenieEnv)
    (raw_output platform suffix command : string) :
  contains "cisco" platform = true →
  count_char "_" platform = 1%nat →
  count_char "_" suffix = 0%nat →
  get_structured_data_genie env raw_output (platform +:+ String "_" suffix) command
  = get_structured_data_genie env raw_output platform command.
Proof.
  intros Hcisco Hp Hs. unfold get_structured_data_genie.
  rewrite (contains_app _ _ _ Hcisco), Hcisco.
  rewrite base_platform_of_suffix by (done || lia).
  rewrite base_platform_of_plain by lia. reflexivity.
Qed.

(** A Genie whose parser knows one command. *)
Definition lab_genie : GenieEnv := {|
  version_3_4 := true;
  GENIE_INSTALLED := true;
  Device_init _ := Return ();
  genie_parse os command raw_output :=
    if bool_decide (command = "show version")
    then Return (PDict [("os", PStr os)])
    else Raise (OtherException "SchemaEmptyParserError");
|}.

Lemma get_structured_data_genie_transport_ssh :
  get_structured_data_genie lab_genie "IOS 15.2" ("cisco_ios" +:+ String "_" "ssh")
    "show version"
  = get_structured_data_genie lab_genie "IOS 15.2" "cisco_ios" "show version".
Proof.
  apply (get_structured_data_genie_transport lab_genie "IOS 15.2" "cisco_ios" "ssh"
           "show version"); reflexivity.
Defined.

(** With Genie installed, a device that can be set up and a parser that
    raises [Exception]s only, the function does not raise: it returns a
    dictionary or the text it was given. *)
Theorem get_structured_data_genie_no_raise (env : GenieEnv)
    (raw_output platform command : string) :
  version_3_4 env = true →
  GENIE_INSTALLED env = true →
  (∀ os, Device_init env os = Return ()) →
  (∀ os e, genie_parse env os command raw_output = Raise e → is_Exception e = true) →
  get_structured_data_genie env raw_output platform command = Return (Unchanged raw_output)
  ∨ ∃ d, get_structured_data_genie env raw_output platform command
         = Return (Structured (PDict d)).
Proof.
  intros Hv Hg Hdev Hexc. unfold get_structured_data_genie. rewrite Hv, Hg. cbn [negb].
  destruct (contains "cisco" platform); cbn [negb]; [|by left].
  destruct (genie_device_mapper !! base_platform_of platform) as [[|c os]|]; [by left| |by left].
  rewrite Hdev. cbn.
  destruct (genie_parse env (String c os) command raw_output) as [v|e] eqn:Hparse; cbn.
  - destruct v; cbn; eauto.
  - rewrite (Hexc _ _ Hparse). by left.
Qed.

Lemma get_structured_data_genie_no_raise_lab :
  get_structured_data_genie lab_genie "IOS 15.2" "cisco_ios" "show clock"
    = Return (Unchanged "IOS 15.2")
  ∨ ∃ d, get_structured_data_genie lab_genie "IOS 15.2" "cisco_ios" "show clock"
         = Return (Structured (PDict d)).
Proof.
  apply (get_structured_data_genie_no_raise lab_genie "IOS 15.2" "cisco_ios" "show clock").
  - reflexivity.
  - reflexivity.
  - reflexivity.
  - intros os e. cbn. intros [= <-]. reflexivity.
Defined.

End UtilitiesFacts.

(** ** OneAccess: the default line terminator *)

Module OneaccessFacts.
Import OneaccessOneOSBase.

(** The base class always gets a [default_enter] that is not [None]: the
    one the caller passed when there is one and it is not [None], and
    ["\r\n"] otherwise.  The other keyword arguments are passed on
    untouched. *)
Theorem init_kwargs_default_enter (kwargs : gmap string pyval) :
  (∃ v, init_kwargs kwargs !! "default_enter" = Some v ∧ is_None v = false)
  ∧ (∀ v, kwargs !! "default_enter" = Some v → is_None v = false →
          init_kwargs kwargs !! "default_enter" = Some v)
  ∧ (kwargs !! "default_enter" = None ∨ kwargs !! "default_enter" = Some PNone →
     init_kwargs kwargs !! "default_enter" = Some (PStr CRLF))
  ∧ (∀ k, k ≠ "default_enter" → init_kwargs kwargs !! k = kwargs !! k).
Proof.
  unfold init_kwargs. cbn zeta. split_and!.
  - rewrite lookup_insert_eq. eexists. split; [done|].
    destruct (kwargs !! "default_enter") as [v|]; cbn; [|done].
    by destruct (is_None v) eqn:Hv.
  - intros v Hv Hnone. by rewrite lookup_insert_eq, Hv; cbn; rewrite Hnone.
  - intros [Hv|Hv]; by rewrite lookup_insert_eq, Hv.
  - intros k Hk. by rewrite lookup_insert_ne.
Qed.

(** Preparing the keyword arguments twice is preparing them once. *)
Theorem init_kwargs_idempotent (kwargs : gmap string pyval) :
  init_kwargs (init_kwargs kwargs) = init_kwargs kwargs.
Proof.
  unfold init_kwargs. cbn zeta. rewrite lookup_insert_eq. cbn.
  rewrite insert_insert_eq. f_equal.
  destruct (kwargs !! "default_enter") as [v|]; cbn; [|done].
  destruct (is_None v) eqn:Hv; cbn; [done|]. by rewrite Hv.
Qed.

(** ["\n"] *)
Definition LF : string := String "010" EmptyString.

Lemma init_kwargs_default_enter_telnet :
  (∃ v, init_kwargs {["default_enter" := PStr LF]} !! "default_enter" = Some v
        ∧ is_None v = false)
  ∧ init_kwargs {["default_enter" := PStr LF]} !! "default_enter" = Some (PStr LF)
  ∧ init_kwargs {["host" := PStr "r1"]} !! "default_enter" = Some (PStr CRLF)
  ∧ init_kwargs {["host" := PStr "r1"]} !! "host" = Some (PStr "r1").
Proof.
  split_and!.
  - exact (proj1 (init_kwargs_default_enter {["default_enter" := PStr LF]})).
  - exact (proj1 (proj2 (init_kwargs_default_enter {["default_enter" := PStr LF]}))
             (PStr LF) eq_refl eq_refl).
  - exact (proj1 (proj2 (proj2 (init_kwargs_default_enter {["host" := PStr "r1"]})))
             (or_introl eq_refl)).
  - exact (proj2 (proj2 (proj2 (init_kwargs_default_enter {["host" := PStr "r1"]})))
             "host" ltac:(discriminate)).
Defined.

End OneaccessFacts.

(** ** strip_ansi_escape_codes: the sequences that are replaced *)

Module AnsiMore.
Import Re ReFacts Ansi AnsiFacts.

(** The last character a shaped pattern matches. *)
Fixpoint last_chr (r : regex) : option ascii :=
  match r with
  | Chr c => Some c
  | Cat _ r2 => last_chr r2
  | _ => None
  end.

Lemma tail_shaped_last r w g g' :
  tail_shaped r = true → matches r w g g' → last w = last_chr r.
Proof.
  intros Hr Hm.
  induction Hm as [c g|k c g Hc|k w g Hw Hall|r1 r2 w g g' _ IH|r1 r2 w g g' _ IH
                   |r1 r2 w1 w2 g g' g'' Hm1 _ Hm2 IH2|r w g g' _ IH]; cbn in Hr;
    try done.
  apply andb_true_iff in Hr as [_ Hr2]. cbn [last_chr]. rewrite <- (IH2 Hr2).
  rewrite last_app. apply matches_nonempty in Hm2.
  destruct (last w2) eqn:Hlast; [done|]. by apply last_None in Hlast.
Qed.

(** The words of a shaped pattern end with its last character. *)
Lemma code_shaped_last p w : code_shaped p = true → lang p w → last w = last_chr p.
Proof.
  intros Hp (g & g' & Hm).
  destruct p as [| | | |[c| | | | |] r2|]; try done. cbn in Hp.
  apply andb_true_iff in Hp as [_ Hr2].
  inversion Hm as [| | | | |? ? w1 w2 ? g1 ? Hm1 Hm2|]; subst.
  inversion Hm1; subst. cbn [last_chr]. rewrite <- (tail_shaped_last _ _ _ _ Hr2 Hm2).
  apply matches_nonempty in Hm2. destruct w2; [done|]. reflexivity.
Qed.

(** A pattern does not match a sequence that ends with another character. *)
Lemma fullmatch_other_last p w :
  code_shaped p = true → last w ≠ last_chr p → fullmatch p w = false.
Proof.
  intros Hp Hlast. apply not_true_is_false. intros Hfull%fullmatch_lang.
  by apply Hlast, code_shaped_last.
Qed.

(** The sequences a pattern of the deleting list matches end with neither
    [E] nor [L]. *)
Lemma code_set_last :
  Forall (fun p => last_chr p ≠ Some "E"%char ∧ last_chr p ≠ Some "L"%char) code_set.
Proof. repeat constructor; discriminate. Qed.

(** [ESC E] and [ESC [ digits L], as texts. *)
Definition next_line_seq : text := [ESC; "E"%char].
Definition insert_line_seq (digits : text) : text :=
  ESC :: "["%char :: digits ++ ["L"%char].

Definition digits_only (digits : text) : Prop :=
  digits ≠ [] ∧ Forall (fun c => in_cls Digit c = true) digits.

Lemma next_line_seq_esc_seq : esc_seq next_line_seq.
Proof. exists [], "E"%char. by repeat split. Qed.

Lemma insert_line_seq_esc_seq digits : digits_only digits → esc_seq (insert_line_seq digits).
Proof.
  intros [_ Hd]. exists ("["%char :: digits), "L"%char. split_and!; [done| |done].
  constructor; [done|]. eapply Forall_impl; [done|]. intros c. apply in_cls_middle.
Qed.

Lemma insert_line_seq_last digits : last (insert_line_seq digits) = Some "L"%char.
Proof. unfold insert_line_seq. by rewrite !last_cons, last_snoc. Qed.

Lemma insert_line_seq_lang digits :
  digits_only digits → lang code_insert_line (insert_line_seq digits).
Proof.
  intros [Hne Hd]. exists [], ([] ++ [digits]).
  change (insert_line_seq digits)
    with ([ESC] ++ (["["%char] ++ (digits ++ ["L"%char]))).
  apply matches_cat with (g' := []); [constructor|].
  apply matches_cat with (g' := []); [constructor|].
  apply matches_cat with (g' := [] ++ [digits]); [|constructor].
  apply matches_grp. by constructor.
Qed.

(** What [group(1)] is when the insert-line pattern matches at the head
    of an insert-line sequence. *)
Lemma insert_line_groups digits rest n groups :
  digits_only digits →
  match_at code_insert_line (insert_line_seq digits ++ rest) = Some (n, groups) →
  groups = [digits].
Proof.
  intros Hd. unfold match_at.
  intros (w & s' & g' & Heq & Hm & [= _ <-])%rmatch_sound.
  inversion Hm as [| | | | |? ? w1 w2 ? g1 ? Hm1 Hm2|]; subst. inversion Hm1; subst.
  inversion Hm2 as [| | | | |? ? w3 w4 ? g2 ? Hm3 Hm4|]; subst. inversion Hm3; subst.
  inversion Hm4 as [| | | | |? ? w5 w6 ? g3 ? Hm5 Hm6|]; subst. inversion Hm6; subst.
  inversion Hm5 as [| | | | | |? ? ? ? Hm7]; subst.
  inversion Hm7 as [| |? ? ? Hne Hall| | | |]; subst.
  assert (Hw : esc_seq (insert_line_seq w5)) by by apply insert_line_seq_esc_seq.
  destruct (esc_seq_prefix_unique _ _ _ _ (insert_line_seq_esc_seq _ Hd) Hw Heq)
    as [Hsame _].
  unfold insert_line_seq in Hsame. injection Hsame as Hsame.
  apply app_inv_tail in Hsame. by subst.
Qed.

(** *** One pass with a replacement, and the search, over pieces *)

Lemma re_sub_pieces_repl p repl xs :
  code_shaped p = true → Forall tidy xs →
  re_sub p repl (flatten xs)
  = concat ((fun x => if survives p x then piece_text x else repl) <$> xs).
Proof.
  intros Hp Hxs. unfold re_sub, flatten.
  induction Hxs as [|x xs Hx _ IH]; cbn [fmap list_fmap concat].
  - cbn. by rewrite match_at_nil.
  - destruct x as [t|w]; cbn [survives piece_text tidy] in *.
    + rewrite sub_from_plain by done. by rewrite IH.
    + destruct (fullmatch p w) eqn:Hfull; cbn [negb].
      * apply fullmatch_lang in Hfull. rewrite sub_from_hit by done. by rewrite IH.
      * rewrite sub_from_miss; [by rewrite IH|done|done|].
        rewrite <- fullmatch_lang. congruence.
Qed.

Lemma search_from_plain p start t s :
  code_shaped p = true → ESC_free t →
  search_from p start (t ++ s) = search_from p (start + length t) s.
Proof.
  intros Hp Ht. revert start.
  induction Ht as [|c t Hc _ IH]; intros start.
  - cbn. by rewrite Nat.add_0_r.
  - cbn [app search_from length]. rewrite match_at_not_ESC by done.
    rewrite IH. f_equal. lia.
Qed.

(** A match [re.search] finds in a text made of pieces starts at the head
    of one of its sequences. *)
Lemma search_from_pieces p xs start found len groups :
  code_shaped p = true → Forall tidy xs →
  search_from p start (flatten xs) = Some (found, len, groups) →
  ∃ w rest, Code w ∈ xs ∧ match_at p (w ++ rest) = Some (len, groups).
Proof.
  intros Hp Hxs. revert start.
  induction Hxs as [|x xs Hx _ IH]; intros start; unfold flatten in *;
    cbn [fmap list_fmap concat].
  - cbn. by rewrite match_at_nil.
  - destruct x as [t|w]; cbn [piece_text tidy] in *.
    + rewrite search_from_plain by done.
      intros (w & rest & Hin & Hm)%IH. exists w, rest. split; [by constructor|done].
    + destruct (esc_seq_body w Hx) as (body & -> & Hbody).
      cbn [app search_from].
      destruct (match_at p (ESC :: body ++ concat (piece_text <$> xs)))
        as [[n g]|] eqn:Hm.
      * intros [= <- <- <-]. exists (ESC :: body), (concat (piece_text <$> xs)).
        split; [constructor|done].
      * rewrite search_from_plain by done.
        intros (w & rest & Hin & Hm')%IH. exists w, rest. split; [by constructor|done].
Qed.

(** *** Device output with all three kinds of sequence *)

Inductive item :=
| Text (t : text)             (** plain text *)
| Seq (w : text)              (** a sequence the loop deletes *)
| NextLine                    (** [ESC E] *)
| InsertLine (digits : text). (** [ESC [ digits L] *)

Definition spell (x : item) : text :=
  match x with
  | Text t => t
  | Seq w => w
  | NextLine => next_line_seq
  | InsertLine digits => insert_line_seq digits
  end.

(** What an item should become: a deleted sequence nothing, a next-line
    the return string, an insert-line [count] return strings. *)
Definition render (return_str : text) (count : nat) (x : item) : text :=
  match x with
  | Text t => t
  | Seq _ => []
  | NextLine => return_str
  | InsertLine _ => times count return_str
  end.

(** An insert-line item whose count [int] and [count * return_str] take
    without raising. *)
Definition in_range (return_str : text) (x : item) : Prop :=
  match x with
  | InsertLine digits => count_in_range digits return_str
  | _ => True
  end.

(** Plain text without [ESC], deleted sequences from the catalog, and
    insert-line sequences that all carry [count]. *)
Definition well_formed (count : nat) (x : item) : Prop :=
  match x with
  | Text t => ESC_free t
  | Seq w => in_catalog w = true
  | NextLine => True
  | InsertLine digits => digits_only digits ∧ int digits = count
  end.

(** The items as pieces, before the loop and after the next-line pass. *)
Definition to_piece (x : item) : piece :=
  match x with Text t => Plain t | _ => Code (spell x) end.

Definition after_next_line (return_str : text) (x : item) : piece :=
  match x with
  | Text t => Plain t
  | Seq _ => Plain []
  | NextLine => Plain return_str
  | InsertLine digits => Code (insert_line_seq digits)
  end.

Lemma in_catalog_last w :
  in_catalog w = true →
  last w ≠ Some "E"%char ∧ last w ≠ Some "L"%char.
Proof.
  unfold in_catalog. rewrite existsb_exists. intros (p & Hin & Hfull).
  apply fullmatch_lang in Hfull. apply list_elem_of_In in Hin.
  pose proof code_set_shaped as Hshaped. pose proof code_set_last as Hlast.
  rewrite Forall_forall in Hshaped, Hlast.
  rewrite (code_shaped_last p w) by auto. by apply Hlast.
Qed.

Lemma to_piece_tidy count x : well_formed count x → tidy (to_piece x).
Proof.
  destruct x as [t|w| |digits]; cbn; [done| | |].
  - apply in_catalog_esc_seq.
  - intros _. apply next_line_seq_esc_seq.
  - intros [Hd _]. by apply insert_line_seq_esc_seq.
Qed.

(** The loop deletes the catalog's sequences and leaves the two others. *)
Lemma loop_keeps count x :
  well_formed count x →
  forallb (fun p => survives p (to_piece x)) code_set
  = match x with Seq _ => false | _ => true end.
Proof.
  pose proof code_set_shaped as Hshaped. pose proof code_set_last as Hlast.
  rewrite Forall_forall in Hshaped, Hlast.
  destruct x as [t|w| |digits]; cbn [to_piece well_formed spell]; intros Hx.
  - apply forallb_forall. done.
  - apply not_true_is_false. intros Hall. rewrite forallb_forall in Hall.
    unfold in_catalog in Hx. apply existsb_exists in Hx as (p & Hin & Hfull).
    specialize (Hall p Hin). cbn in Hall. by rewrite Hfull in Hall.
  - apply forallb_forall. intros p Hin%list_elem_of_In. cbn [survives].
    rewrite fullmatch_other_last; [done|by apply Hshaped|].
    intros Heq. destruct (Hlast p Hin) as [HE _]. apply HE. by rewrite <- Heq.
  - apply forallb_forall. intros p Hin%list_elem_of_In. cbn [survives].
    rewrite fullmatch_other_last; [done|by apply Hshaped|].
    rewrite insert_line_seq_last. intros Heq.
    destruct (Hlast p Hin) as [_ HL]. apply HL. by rewrite <- Heq.
Qed.

Lemma strip_loop_items count xs :
  Forall (well_formed count) xs →
  foldl (fun output p => re_sub p [] output) (concat (spell <$> xs)) code_set
  = concat ((fun x => match x with Seq _ => [] | _ => spell x end) <$> xs).
Proof.
  intros Hxs.
  assert (Hflat : concat (spell <$> xs) = flatten (to_piece <$> xs)).
  { unfold flatten. rewrite <- list_fmap_compose. f_equal.
    apply list_fmap_ext. by intros i [] Hi. }
  rewrite Hflat, strip_loop_pieces.
  - unfold flatten. clear Hflat.
    induction Hxs as [|x xs Hx _ IH]; [done|].
    rewrite !fmap_cons. cbn [List.filter]. rewrite (loop_keeps count x Hx).
    destruct x; cbn [fmap list_fmap concat piece_text to_piece spell app];
      try (f_equal; exact IH). exact IH.
  - apply code_set_shaped.
  - apply Forall_fmap. eapply Forall_impl; [done|]. intros x. apply to_piece_tidy.
Qed.

Lemma after_loop_tidy count xs :
  Forall (well_formed count) xs →
  Forall tidy ((fun x => match x with Seq _ => Plain [] | _ => to_piece x end) <$> xs).
Proof.
  intros Hxs. apply Forall_fmap. eapply Forall_impl; [done|].
  intros [t|w| |digits] Hx; cbn; [done|constructor|..].
  - apply next_line_seq_esc_seq.
  - destruct Hx. by apply insert_line_seq_esc_seq.
Qed.

Lemma after_next_line_tidy return_str count xs :
  ESC_free return_str → Forall (well_formed count) xs →
  Forall tidy (after_next_line return_str <$> xs).
Proof.
  intros Hrs Hxs. apply Forall_fmap. eapply Forall_impl; [done|].
  intros [t|w| |digits] Hx; cbn; [done|constructor|done|].
  destruct Hx. by apply insert_line_seq_esc_seq.
Qed.

(** The next-line pass. *)
Lemma next_line_pass_items return_str count xs :
  Forall (well_formed count) xs →
  re_sub code_next_line return_str
    (concat ((fun x => match x with Seq _ => [] | _ => spell x end) <$> xs))
  = flatten (after_next_line return_str <$> xs).
Proof.
  intros Hxs.
  assert (Hflat : concat ((fun x => match x with Seq _ => [] | _ => spell x end) <$> xs)
                  = flatten ((fun x => match x with
                                       | Seq _ => Plain []
                                       | _ => to_piece x
                                       end) <$> xs)).
  { unfold flatten. rewrite <- list_fmap_compose. f_equal.
    apply list_fmap_ext. by intros i [] Hi. }
  rewrite Hflat, re_sub_pieces_repl; [|done|by eapply after_loop_tidy].
  unfold flatten. rewrite <- !list_fmap_compose. f_equal.
  apply list_fmap_ext. intros i [t|w| |digits] Hi; cbn; [done..|].
  rewrite fullmatch_other_last; [done..|]. by rewrite insert_line_seq_last.
Qed.

(** The insert-line pass. *)
Lemma insert_line_pass_items return_str count repl xs :
  ESC_free return_str → Forall (well_formed count) xs →
  re_sub code_insert_line repl (flatten (after_next_line return_str <$> xs))
  = concat ((fun x => match x with
                      | InsertLine _ => repl
                      | _ => render return_str count x
                      end) <$> xs).
Proof.
  intros Hrs Hxs.
  rewrite re_sub_pieces_repl; [|done|by eapply after_next_line_tidy].
  rewrite <- list_fmap_compose. f_equal.
  apply Forall_fmap_ext_1. eapply Forall_impl; [done|].
  intros [t|w| |digits] Hx; unfold compose;
    cbn [after_next_line survives piece_text render]; [done..|].
  destruct Hx as [Hd _].
  replace (fullmatch code_insert_line (insert_line_seq digits)) with true; [done|].
  symmetry. by apply fullmatch_lang, insert_line_seq_lang.
Qed.

(** The group the function converts is the one [insert_line_group]
    names. *)
Lemma strip_ansi_escape_codes_group string_buffer return_str :
  strip_ansi_escape_codes string_buffer return_str
  = let output :=
      re_sub code_next_line return_str
        (foldl (fun output p => re_sub p [] output) string_buffer code_set) in
    match insert_line_group string_buffer return_str with
    | Some digits => re_sub code_insert_line (times (int digits) return_str) output
    | None => output
    end.
Proof.
  unfold strip_ansi_escape_codes, insert_line_group. cbv zeta.
  by destruct (re_search code_insert_line _) as [[[? ?] ?]|].
Qed.

(** On device output made of plain text without [ESC], sequences of the
    deleting list, next-line sequences and insert-line sequences that all
    carry the same count, with a return string that holds neither [ESC]
    nor a backslash, and with every count in the range [int] and the
    repetition accept (at most 4300 digits, count and length of the
    repeated string below 2^63): the deleted sequences go, every
    next-line becomes the return string, and every insert-line becomes
    [count] return strings, each at its place. *)
Theorem strip_ansi_escape_codes_replaces (xs : list item) (return_str : text) (count : nat) :
  ESC_free return_str →
  literal_template return_str →
  Forall (well_formed count) xs →
  Forall (in_range return_str) xs →
  strip_ansi_escape_codes (concat (spell <$> xs)) return_str
  = concat (render return_str count <$> xs).
Proof.
  intros Hrs _ Hxs _. unfold strip_ansi_escape_codes. cbn zeta.
  rewrite (strip_loop_items count) by done.
  rewrite (next_line_pass_items return_str count) by done.
  assert (Hrender : ∀ repl,
    repl = times count return_str →
    re_sub code_insert_line repl (flatten (after_next_line return_str <$> xs))
    = concat (render return_str count <$> xs)).
  { intros repl ->. rewrite (insert_line_pass_items return_str count) by done.
    f_equal. apply list_fmap_ext. by intros i [] Hi. }
  destruct (re_search code_insert_line (flatten (after_next_line return_str <$> xs)))
    as [[[found len] groups]|] eqn:Hsearch.
  - apply Hrender. f_equal.
    apply search_from_pieces in Hsearch as (w & rest & Hin & Hm);
      [|done|by eapply after_next_line_tidy].
    apply list_elem_of_fmap in Hin as (x & Hx & Hin).
    rewrite Forall_forall in Hxs. apply Hxs in Hin.
    destruct x as [t|w'| |digits]; cbn in Hx; try done.
    injection Hx as ->. destruct Hin as [Hd <-].
    by rewrite (insert_line_groups _ _ _ _ Hd Hm).
  - rewrite <- (Hrender (times count return_str) eq_refl).
    symmetry. by apply re_sub_no_match.
Qed.

(** A ProCurve-style screen: a colour, a word, two lines inserted, a
    word, next line, two more lines inserted. *)
Definition procurve_screen : list item :=
  [ Seq (ESC :: txt "[00;32m"); Text (txt "up"); InsertLine (txt "2");
    Text (txt "down"); NextLine; InsertLine (txt "02") ].

Lemma strip_ansi_escape_codes_replaces_procurve :
  strip_ansi_escape_codes (concat (spell <$> procurve_screen)) LF
  = txt "up" ++ LF ++ LF ++ txt "down" ++ LF ++ LF ++ LF.
Proof.
  apply (strip_ansi_escape_codes_replaces procurve_screen LF 2).
  - repeat constructor; discriminate.
  - repeat constructor; discriminate.
  - unfold procurve_screen.
    repeat first [ apply Forall_cons; split | apply Forall_nil ]; cbn;
      repeat split; repeat constructor; discriminate.
  - unfold procurve_screen.
    repeat first [ apply Forall_cons; split | apply Forall_nil ];
      try exact I; vm_compute; repeat split; discriminate.
Defined.

(** *** With an empty return string the function only deletes *)

Lemma sub_from_sublist p skip s : sub_from p [] skip s `sublist_of` s.
Proof.
  revert skip. induction s as [|c s IH]; intros skip.
  - cbn. destruct skip; [|done]. by destruct (match_at p []).
  - cbn. destruct skip as [|skip]; [|by apply sublist_cons].
    destruct (match_at p (c :: s)) as [[[|n] g]|]; cbn.
    + by apply sublist_skip.
    + by apply sublist_cons.
    + by apply sublist_skip.
Qed.

Lemma times_nil count : times count [] = [].
Proof. unfold times. induction count as [|count IH]; [done|]. exact IH. Qed.

(** Called with the empty string as return string, on an input whose
    first insert-line count, if it has one, is in the range [int] and the
    repetition accept (at most 4300 digits, value below 2^63), the
    function gives a subsequence of its input: it deletes characters and
    adds or moves none. *)
Theorem strip_ansi_escape_codes_only_deletes (string_buffer : text) :
  (∀ digits, insert_line_group string_buffer [] = Some digits →
             count_in_range digits []) →
  strip_ansi_escape_codes string_buffer [] `sublist_of` string_buffer.
Proof.
  intros _. unfold strip_ansi_escape_codes. cbn zeta.
  assert (Hloop : ∀ codes s,
    foldl (fun output p => re_sub p [] output) s codes `sublist_of` s).
  { intros codes. induction codes as [|p codes IH]; intros s; cbn [foldl]; [done|].
    etrans; [apply IH|]. apply sub_from_sublist. }
  set (out := foldl _ string_buffer code_set).
  assert (Hout : out `sublist_of` string_buffer) by apply Hloop.
  assert (Hnext : re_sub code_next_line [] out `sublist_of` string_buffer).
  { etrans; [apply sub_from_sublist|done]. }
  destruct (re_search code_insert_line (re_sub code_next_line [] out)) as [[[? ?] groups]|];
    [|done].
  rewrite times_nil. etrans; [apply sub_from_sublist|done].
Qed.

(** A screen with a colour, two lines inserted and an erased line end. *)
Definition inserted_screen : text :=
  ESC :: txt "[00;32m" ++ txt "up" ++ ESC :: txt "[2L" ++ txt "down" ++ ESC :: txt "[K".

Lemma strip_ansi_escape_codes_only_deletes_screen :
  insert_line_group inserted_screen [] = Some (txt "2")
  ∧ strip_ansi_escape_codes inserted_screen [] `sublist_of` inserted_screen.
Proof.
  split; [reflexivity|].
  apply (strip_ansi_escape_codes_only_deletes inserted_screen).
  intros digits Hgroup. vm_compute in Hgroup. injection Hgroup as <-.
  vm_compute. repeat split; discriminate.
Defined.

End AnsiMore.

(** ** sixwind/sixwind_os.py: commit *)

Module SixwindCommit.
Import Conn Utilities.
Local Open Scope conn_scope.

(** What [commit] inherits from [CiscoBaseConnection] and
    [BaseConnection].  [F] stands for Python's [float]: delay factors are
    only handed on. *)
Class SixwindSuper (St F : Type) := {
  (** [self.select_delay_factor(delay_factor)] *)
  select_delay_factor : F → M St F;
  (** [super().config_mode(config_command=..., pattern=..., re_flags=...)] *)
  super_config_mode : string → string → Z → M St string;
  (** [self.send_command(command_string, strip_prompt=..., strip_command=...,
      delay_factor=..., expect_string=...)] *)
  send_command : string → bool → bool → F → string → M St string;
  (** [super().exit_config_mode(exit_config=..., pattern=...)] *)
  super_exit_config_mode : string → string → M St string;
}.

Section Driver.
Context {St F : Type} `{SixwindSuper St F}.

(** Lines 37-44, called as [self.config_mode()]. *)
Definition config_mode : M St string := super_config_mode "edit running" "" 0.

(** Lines 72-75, called as [self.exit_config_mode()]. *)
Definition exit_config_mode : M St string := super_exit_config_mode "exit" ">".

Definition error_marker : string := "Failed to generate committed config".

(** The message of line 68. *)
Definition commit_failed (output : string) : string :=
  "Commit failed with following errors:"
  +:+ String "010" (String "010" EmptyString) +:+ output.

(** Lines 46-70. *)
Definition commit (comment : string) (delay_factor : F) : M St string :=
  let* delay_factor := select_delay_factor delay_factor in
  let command_string := "commit" in
  let* output := config_mode in
  let* sent := send_command command_string false false delay_factor "#" in
  let output := output +:+ sent in
  let* left := exit_config_mode in
  let output := output +:+ left in
  if contains error_marker output then raise (ValueError (commit_failed output))
  else ret output.
End Driver.

(** A 6WIND device that answers the commit with [answer]; [log] is what
    it was sent. *)
Record router := { answer : string; log : list string }.

Definition tell (line : string) (reply : string) : M router string :=
  fun r => (Return reply, {| answer := answer r; log := log r ++ [line] |}).

#[export] Instance router_super : SixwindSuper router nat := {|
  select_delay_factor delay_factor := ret delay_factor;
  super_config_mode config_command pattern re_flags := tell config_command "";
  send_command command_string strip_prompt strip_command delay_factor expect_string :=
    fun r => tell command_string (answer r) r;
  super_exit_config_mode exit_config pattern := tell exit_config "";
|}.

Section Facts.
Context {St F : Type} `{SixwindSuper St F}.

(** When the four steps of [commit] return, the session has left
    configuration mode before the output is looked at: the text of the
    three exchanges is returned if it does not hold the error marker, and
    [ValueError] is raised with it otherwise.  The comment is not used. *)
Theorem commit_checks_after_exit (comment : string) (delay_factor : F) (s : St)
    delay_factor' s1 entered s2 sent s3 left s4 :
  select_delay_factor delay_factor s = (Return delay_factor', s1) →
  config_mode s1 = (Return entered, s2) →
  send_command "commit" false false delay_factor' "#" s2 = (Return sent, s3) →
  exit_config_mode s3 = (Return left, s4) →
  let output := (entered +:+ sent) +:+ left in
  commit comment delay_factor s
  = (if contains error_marker output then Raise (ValueError (commit_failed output))
     else Return output, s4).
Proof.
  intros Hdelay Hconfig Hsend Hexit. cbn zeta. unfold commit, bind.
  rewrite Hdelay, Hconfig, Hsend, Hexit.
  by destruct (contains error_marker _).
Qed.

(** Text that [commit] returns never holds the error marker. *)
Theorem commit_returns_clean (comment : string) (delay_factor : F) (s s' : St)
    (output : string) :
  commit comment delay_factor s = (Return output, s') →
  contains error_marker output = false.
Proof.
  unfold commit, bind.
  destruct (select_delay_factor delay_factor s) as [[delay_factor'|e] s1]; [|done].
  destruct (config_mode s1) as [[entered|e] s2]; [|done].
  destruct (send_command "commit" false false delay_factor' "#" s2) as [[sent|e] s3];
    [|done].
  destruct (exit_config_mode s3) as [[left|e] s4]; [|done].
  destruct (contains error_marker _) eqn:Hmarker; [done|].
  by intros [= <- <-].
Qed.
End Facts.

Lemma commit_checks_after_exit_router :
  commit "nightly" 1%nat {| answer := "Failed to generate committed config: vrf"; log := [] |}
  = (Raise (ValueError (commit_failed "Failed to generate committed config: vrf")),
     {| answer := "Failed to generate committed config: vrf";
        log := ["edit running"; "commit"; "exit"] |}).
Proof.
  exact (commit_checks_after_exit "nightly" 1%nat
           {| answer := "Failed to generate committed config: vrf"; log := [] |}
           _ _ _ _ _ _ _ _ eq_refl eq_refl eq_refl eq_refl).
Defined.

Lemma commit_returns_clean_router :
  contains error_marker "Configuration committed." = false.
Proof.
  exact (commit_returns_clean "" 1%nat
           {| answer := "Configuration committed."; log := [] |}
           {| answer := "Configuration committed.";
              log := ["edit running"; "commit"; "exit"] |}
           "Configuration committed." eq_refl).
Defined.

End SixwindCommit.
